(** * Multi-level page tables (pt.c): a shallow embedding and its properties

    The translation unit [pt.c] implements a five-level radix page table
    over physical memory: [page_table_update] creates or destroys the
    mapping of a virtual page number, [page_table_query] looks one up.

    The embedding keeps the shape of the C code.  Machine words are
    integers in [Z] with the 64-bit wrap-around written out, physical
    memory is a store of 64-bit words indexed by byte address, and the
    three tree walks are loops in a small state-and-fault monad.  *)

From Stdlib Require Import ZArith List Lia Bool.
Import ListNotations.
Local Open Scope Z_scope.

(** ** Machine words *)

Definition wrap64 (x : Z) : Z := x mod 2 ^ 64.

(** [x << k] on [uint64_t]. *)
Definition shl64 (x k : Z) : Z := wrap64 (Z.shiftl x k).
(** [x + y] and [x - y] on [uint64_t]. *)
Definition add64 (x y : Z) : Z := wrap64 (x + y).
Definition sub64 (x y : Z) : Z := wrap64 (x - y).

(** [#define EXTRACT_9BITS (0x1ff)] *)
Definition EXTRACT_9BITS : Z := 511.

(** ** Physical memory and the frame allocator *)

(** The machine state: the contents of physical memory, one 64-bit word
    per byte address at which a word is stored, and the number of the
    next frame the allocator hands out. *)
Record state : Type := mkState {
  mem : Z -> Z;
  next_frame : Z
}.

Definition upd (m : Z -> Z) (a v : Z) : Z -> Z :=
  fun x => if x =? a then v else m x.

Definition set_mem (st : state) (a v : Z) : state :=
  mkState (upd (mem st) a v) (next_frame st).

(** Two states with the same contents.  Memory is a function, so states
    are compared word by word. *)
Definition same_state (s t : state) : Prop :=
  next_frame s = next_frame t /\ forall a, mem s a = mem t a.

(** What a call can do: finish with a value and a new state, perform an
    access that C leaves undefined (a [uint64_t] access that is misaligned
    or outside the 64-bit address space), or exhaust the fuel given to a
    loop. *)
Inductive outcome (A : Type) : Type :=
| Done (a : A) (st : state)
| Fault
| OutOfFuel.
Arguments Done {A} a st.
Arguments Fault {A}.
Arguments OutOfFuel {A}.

Definition M (A : Type) : Type := state -> outcome A.

Definition ret {A} (a : A) : M A := fun st => Done a st.

Definition bind {A B} (m : M A) (k : A -> M B) : M B :=
  fun st =>
    match m st with
    | Done a st' => k a st'
    | Fault => Fault
    | OutOfFuel => OutOfFuel
    end.

Definition out_of_fuel {A} : M A := fun _ => OutOfFuel.

Notation "x <- m ;; k" := (bind m (fun x => k))
  (at level 61, m at next level, right associativity).
Notation "m ;;; k" := (bind m (fun _ => k))
  (at level 61, right associativity).

(** The value a run finished with, if it finished. *)
Definition value_of {A} (o : outcome A) : option A :=
  match o with Done a _ => Some a | _ => None end.

(** An address at which a [uint64_t] may be read or written. *)
Definition valid_addr (a : Z) : bool :=
  (0 <=? a) && (a + 8 <=? 2 ^ 64) && (a mod 8 =? 0).

(** [curr_pt[pte]] as an rvalue: the word at byte address
    [curr_pt + 8 * pte]. *)
Definition load (curr_pt pte : Z) : M Z :=
  fun st =>
    if valid_addr (curr_pt + 8 * pte)
    then Done (mem st (curr_pt + 8 * pte)) st
    else Fault.

(** [curr_pt[pte] = v]. *)
Definition store (curr_pt pte v : Z) : M unit :=
  fun st =>
    if valid_addr (curr_pt + 8 * pte)
    then Done tt (set_mem st (curr_pt + 8 * pte) v)
    else Fault.

(** Modelled from the spec: [phys_to_virt] is declared in os.h and defined
    outside pt.c.  The spec describes it as a bijective, stable map from
    physical pages to directly accessible node references; a pointer is
    represented here by the physical byte address it refers to. *)
Definition phys_to_virt (phys_addr : Z) : Z := phys_addr.

(** Modelled from the spec: [alloc_page_frame] is declared in os.h and
    defined outside pt.c.  The spec describes it as returning a fresh,
    exclusively owned, zero-initialised frame and never failing; it is a
    bump allocator here, and freshness and zero-initialisation are part of
    the table invariant below. *)
Definition alloc_page_frame : M Z :=
  fun st => Done (next_frame st) (mkState (mem st) (next_frame st + 1)).

(** The number of loop-condition evaluations of [for (i = 1; i < 5; i++)]. *)
Definition loop_fuel : nat := 5.

(** ** The three operations *)

(** The loop of [destroy_virtual_memory_mapping]; it yields the values of
    [i], [curr_pt] and [pte] with which control reaches the statement
    after the loop, whether through [break] or through the loop test. *)
Fixpoint destroy_loop (fuel : nat) (vpn i curr_pt pte : Z) : M (Z * Z * Z) :=
  match fuel with
  | O => out_of_fuel
  | S fuel' =>
      if i <? 5 then
        e <- load curr_pt pte ;;
        if e mod 2 =? 0 then ret (i, curr_pt, pte)
        else
          e' <- load curr_pt pte ;;
          destroy_loop fuel' vpn (i + 1)
            (phys_to_virt (sub64 e' 1))
            (Z.land (Z.shiftr vpn (36 - i * 9)) EXTRACT_9BITS)
      else ret (i, curr_pt, pte)
  end.

Definition destroy_virtual_memory_mapping (root_pt vpn : Z) : M unit :=
  r <- destroy_loop loop_fuel vpn 1 root_pt
         (Z.land (Z.shiftr vpn 36) EXTRACT_9BITS) ;;
  let '(_, curr_pt, pte) := r in
  store curr_pt pte 0.

(** The loop of [create_virtual_memory_mapping]. *)
Fixpoint create_loop (fuel : nat) (vpn i curr_pt pte : Z) : M (Z * Z * Z) :=
  match fuel with
  | O => out_of_fuel
  | S fuel' =>
      if i <? 5 then
        e <- load curr_pt pte ;;
        (if e mod 2 =? 0 then
           f <- alloc_page_frame ;;
           store curr_pt pte (add64 (shl64 f 12) 1)
         else ret tt) ;;;
        e' <- load curr_pt pte ;;
        create_loop fuel' vpn (i + 1)
          (phys_to_virt (sub64 e' 1))
          (Z.land (Z.shiftr vpn (36 - i * 9)) EXTRACT_9BITS)
      else ret (i, curr_pt, pte)
  end.

Definition create_virtual_memory_mapping (root_pt vpn ppn : Z) : M unit :=
  r <- create_loop loop_fuel vpn 1 root_pt
         (Z.land (Z.shiftr vpn 36) EXTRACT_9BITS) ;;
  let '(_, curr_pt, pte) := r in
  store curr_pt pte (add64 (shl64 ppn 12) 1).

(** How the loop of [page_table_query] is left: by the [return] inside
    the loop body, or through the loop test. *)
Inductive loop_exit : Type :=
| Returned (i : Z) (result : Z)
| Finished (i : Z) (curr_pt pte : Z).

Section Operations.

(** [NO_MAPPING] is defined in os.h, outside pt.c; the operations are
    stated for an arbitrary value of the sentinel. *)
Variable NO_MAPPING : Z.

Definition page_table_update (pt vpn ppn : Z) : M unit :=
  let pt_va := phys_to_virt (shl64 pt 12) in
  if ppn =? NO_MAPPING
  then destroy_virtual_memory_mapping pt_va vpn
  else create_virtual_memory_mapping pt_va vpn ppn.

Fixpoint query_loop (fuel : nat) (vpn i curr_pt pte : Z) : M loop_exit :=
  match fuel with
  | O => out_of_fuel
  | S fuel' =>
      if i <? 5 then
        e <- load curr_pt pte ;;
        if e mod 2 =? 0 then ret (Returned i NO_MAPPING)
        else
          e' <- load curr_pt pte ;;
          query_loop fuel' vpn (i + 1)
            (phys_to_virt (sub64 e' 1))
            (Z.land (Z.shiftr vpn (36 - i * 9)) EXTRACT_9BITS)
      else ret (Finished i curr_pt pte)
  end.

Definition page_table_query (pt vpn : Z) : M Z :=
  let curr_pt := phys_to_virt (shl64 pt 12) in
  r <- query_loop loop_fuel vpn 1 curr_pt
         (Z.land (Z.shiftr vpn 36) EXTRACT_9BITS) ;;
  match r with
  | Returned _ result => ret result
  | Finished _ curr_pt pte =>
      e <- load curr_pt pte ;;
      if e mod 2 =? 1 then
        e' <- load curr_pt pte ;;
        ret (Z.shiftr e' 12)
      else ret NO_MAPPING
  end.

(** A caller's sequence of calls on one root table. *)
Inductive call : Type :=
| Update (vpn ppn : Z)
| Query (vpn : Z).

Definition exec_call (pt : Z) (c : call) : M unit :=
  match c with
  | Update vpn ppn => page_table_update pt vpn ppn
  | Query vpn => page_table_query pt vpn ;;; ret tt
  end.

Fixpoint exec_calls (pt : Z) (cs : list call) : M unit :=
  match cs with
  | [] => ret tt
  | c :: cs' => exec_call pt c ;;; exec_calls pt cs'
  end.

End Operations.

(** A machine whose allocator has handed out frames 0 and 1 and whose
    memory is all zero: frame 1 is a freshly allocated root table. *)
Definition boot : state := mkState (fun _ => 0) 2.

(** The value of [NO_MAPPING] used in the concrete runs below: the
    all-ones word. *)
Definition all_ones : Z := 2 ^ 64 - 1.

(** The machine [boot] after page 0x1000 of the table rooted at frame 1
    has been mapped to physical page 7. *)
Definition boot_mapped : state :=
  match page_table_update all_ones 1 4096 7 boot with
  | Done _ st => st
  | _ => boot
  end.

(** ** The walk as a function of memory

    The three loops visit the same slots.  [walk] is that visit as a pure
    function: starting at node [cur] with loop counter [i], follow the
    indices in [p] for as long as the pointer entries are valid. *)

Definition vpn_index (vpn k : Z) : Z :=
  Z.land (Z.shiftr vpn (45 - 9 * k)) EXTRACT_9BITS.

Fixpoint path_from (vpn i : Z) (n : nat) : list Z :=
  match n with
  | O => []
  | S n' => vpn_index vpn i :: path_from vpn (i + 1) n'
  end.

(** The four indices that select pointer entries; the fifth,
    [vpn_index vpn 5], selects the leaf entry. *)
Definition vpn_path (vpn : Z) : list Z := path_from vpn 1 4.

Inductive walk_result : Type :=
| WFault
| WStop (i : Z) (curr_pt pte : Z)
| WNode (curr_pt : Z).

Fixpoint walk (m : Z -> Z) (i cur : Z) (p : list Z) : walk_result :=
  match p with
  | [] => WNode cur
  | j :: p' =>
      if valid_addr (cur + 8 * j) then
        if m (cur + 8 * j) mod 2 =? 0 then WStop i cur j
        else walk m (i + 1) (phys_to_virt (sub64 (m (cur + 8 * j)) 1)) p'
      else WFault
  end.

Definition root_of (pt : Z) : Z := phys_to_virt (shl64 pt 12).

(** The answer of a query, read off the memory. *)
Definition lookup (NO_MAPPING : Z) (m : Z -> Z) (pt vpn : Z) : Z :=
  match walk m 1 (root_of pt) (vpn_path vpn) with
  | WNode a =>
      let e := m (a + 8 * vpn_index vpn 5) in
      if e mod 2 =? 1 then Z.shiftr e 12 else NO_MAPPING
  | _ => NO_MAPPING
  end.

(** ** The table invariant *)

Definition index_ok (j : Z) : Prop := 0 <= j < 512.
Definition path_ok (p : list Z) : Prop := Forall index_ok p.

(** An entry is all-zero, or a page number shifted into bits 12-63 with
    the valid bit set. *)
Definition pte_ok (e : Z) : Prop :=
  e = 0 \/ exists n, 0 <= n < 2 ^ 52 /\ e = Z.shiftl n 12 + 1.

(** A node occupies one allocated frame and holds 512 well-formed
    entries. *)
Definition node_ok (st : state) (a : Z) : Prop :=
  (exists f, 0 <= f < next_frame st /\ a = 4096 * f) /\
  forall j, index_ok j -> pte_ok (mem st (a + 8 * j)).

(** The table rooted at [pt] is a tree of allocated nodes: every node
    reached from the root is well formed, no node is reached along two
    different paths, frame numbers fit in 52 bits, and the frames not yet
    handed out by the allocator are zero. *)
Record table_inv (pt : Z) (st : state) : Prop := mkInv {
  inv_capacity : 0 <= next_frame st <= 2 ^ 52;
  inv_fresh : forall a, 4096 * next_frame st <= a -> mem st a = 0;
  inv_nodes : forall p a,
    path_ok p -> (length p <= 4)%nat ->
    walk (mem st) 1 (root_of pt) p = WNode a -> node_ok st a;
  inv_tree : forall p q a,
    path_ok p -> path_ok q -> (length p <= 4)%nat -> (length q <= 4)%nat ->
    walk (mem st) 1 (root_of pt) p = WNode a ->
    walk (mem st) 1 (root_of pt) q = WNode a -> p = q
}.

(** A root table as the allocator hands it out: all entries zero. *)
Definition fresh_table (pt : Z) (st : state) : Prop :=
  0 <= next_frame st <= 2 ^ 52 /\
  (exists f, 0 <= f < next_frame st /\ root_of pt = 4096 * f) /\
  (forall j, index_ok j -> mem st (root_of pt + 8 * j) = 0) /\
  (forall a, 4096 * next_frame st <= a -> mem st a = 0).

(** The state after a frame has been taken from the allocator and its
    pointer entry written at index [i] of node [c]. *)
Definition linked (st : state) (c i : Z) : state :=
  mkState (upd (mem st) (c + 8 * i) (4096 * next_frame st + 1))
          (next_frame st + 1).


(** The mask [~1] on [uint64_t]: every bit but the valid bit. *)
Definition clear_valid_mask : Z := wrap64 (Z.lnot 1).

(** ** The table as a map from pages to answers

    What a caller sees of a table is the answer of [page_table_query] for
    each page.  The definitions below describe how a call changes that
    view; they are compared with the code in the last part of the file. *)

(** Two virtual page numbers that agree in bits 0-44. *)
Definition same_page (v w : Z) : bool := v mod 2 ^ 45 =? w mod 2 ^ 45.

(** The answer a page gives after an update with [ppn]. *)
Definition answer_of (NO_MAPPING ppn : Z) : Z :=
  if ppn =? NO_MAPPING then NO_MAPPING else ppn mod 2 ^ 52.

Definition model_call (NO_MAPPING : Z) (c : call) (f : Z -> Z) : Z -> Z :=
  match c with
  | Update vpn ppn =>
      fun v => if same_page v vpn then answer_of NO_MAPPING ppn else f v
  | Query _ => f
  end.

(** The view after a sequence of calls on an empty table. *)
Definition model_calls (NO_MAPPING : Z) (cs : list call) : Z -> Z :=
  fold_left (fun f c => model_call NO_MAPPING c f) cs (fun _ => NO_MAPPING).

(** ** Words and indices *)

Lemma vpn_index_ok vpn k : index_ok (vpn_index vpn k).
Proof.
  unfold index_ok, vpn_index, EXTRACT_9BITS.
  change 511 with (Z.ones 9). rewrite Z.land_ones by lia.
  change (2 ^ 9) with 512. apply Z.mod_pos_bound. lia.
Qed.

Lemma path_from_ok vpn n : forall i, path_ok (path_from vpn i n).
Proof.
  induction n as [|n IH]; intro i; simpl.
  - constructor.
  - constructor; [apply vpn_index_ok | apply IH].
Qed.

Lemma path_from_length vpn n : forall i, length (path_from vpn i n) = n.
Proof. induction n as [|n IH]; intro i; simpl; [reflexivity | now rewrite IH]. Qed.

Lemma next_index vpn i :
  Z.land (Z.shiftr vpn (36 - i * 9)) EXTRACT_9BITS = vpn_index vpn (i + 1).
Proof. unfold vpn_index. do 2 f_equal. lia. Qed.

Lemma first_index vpn :
  Z.land (Z.shiftr vpn 36) EXTRACT_9BITS = vpn_index vpn 1.
Proof. reflexivity. Qed.

(** ** The loops follow the walk *)

Lemma destroy_loop_eq fuel vpn i curr_pt pte :
  destroy_loop (S fuel) vpn i curr_pt pte =
  (if i <? 5 then
     (e <- load curr_pt pte ;;
      if e mod 2 =? 0 then ret (i, curr_pt, pte)
      else
        e' <- load curr_pt pte ;;
        destroy_loop fuel vpn (i + 1)
          (phys_to_virt (sub64 e' 1))
          (Z.land (Z.shiftr vpn (36 - i * 9)) EXTRACT_9BITS))
   else ret (i, curr_pt, pte)).
Proof. reflexivity. Qed.

Lemma walk_cons m i cur j p :
  walk m i cur (j :: p) =
  if valid_addr (cur + 8 * j) then
    if m (cur + 8 * j) mod 2 =? 0 then WStop i cur j
    else walk m (i + 1) (phys_to_virt (sub64 (m (cur + 8 * j)) 1)) p
  else WFault.
Proof. reflexivity. Qed.

Lemma destroy_loop_walk vpn extra n : forall i cur st,
  i + Z.of_nat n = 5 ->
  destroy_loop (S (n + extra)) vpn i cur (vpn_index vpn i) st =
  match walk (mem st) i cur (path_from vpn i n) with
  | WFault => Fault
  | WStop i' c j => Done (i', c, j) st
  | WNode a => Done (5, a, vpn_index vpn 5) st
  end.
Proof.
  induction n as [|n IH]; intros i cur st Hi; rewrite destroy_loop_eq.
  - assert (i = 5) by lia. subst i. reflexivity.
  - assert (Hlt : (i <? 5) = true) by (apply Z.ltb_lt; lia). rewrite Hlt.
    cbn [path_from]. rewrite walk_cons. unfold bind, load, ret.
    destruct (valid_addr (cur + 8 * vpn_index vpn i)); [|reflexivity].
    destruct (mem st (cur + 8 * vpn_index vpn i) mod 2 =? 0); [reflexivity|].
    rewrite next_index. apply IH. lia.
Qed.

Section QueryWalk.
Variable NO_MAPPING : Z.

Lemma query_loop_eq fuel vpn i curr_pt pte :
  query_loop NO_MAPPING (S fuel) vpn i curr_pt pte =
  (if i <? 5 then
     (e <- load curr_pt pte ;;
      if e mod 2 =? 0 then ret (Returned i NO_MAPPING)
      else
        e' <- load curr_pt pte ;;
        query_loop NO_MAPPING fuel vpn (i + 1)
          (phys_to_virt (sub64 e' 1))
          (Z.land (Z.shiftr vpn (36 - i * 9)) EXTRACT_9BITS))
   else ret (Finished i curr_pt pte)).
Proof. reflexivity. Qed.

Lemma query_loop_walk vpn extra n : forall i cur st,
  i + Z.of_nat n = 5 ->
  query_loop NO_MAPPING (S (n + extra)) vpn i cur (vpn_index vpn i) st =
  match walk (mem st) i cur (path_from vpn i n) with
  | WFault => Fault
  | WStop i' _ _ => Done (Returned i' NO_MAPPING) st
  | WNode a => Done (Finished 5 a (vpn_index vpn 5)) st
  end.
Proof.
  induction n as [|n IH]; intros i cur st Hi; rewrite query_loop_eq.
  - assert (i = 5) by lia. subst i. reflexivity.
  - assert (Hlt : (i <? 5) = true) by (apply Z.ltb_lt; lia). rewrite Hlt.
    cbn [path_from]. rewrite walk_cons. unfold bind, load, ret.
    destruct (valid_addr (cur + 8 * vpn_index vpn i)); [|reflexivity].
    destruct (mem st (cur + 8 * vpn_index vpn i) mod 2 =? 0); [reflexivity|].
    rewrite next_index. apply IH. lia.
Qed.

(** A query is a walk down the four pointer levels followed by one read
    of the leaf entry. *)
Lemma query_walk pt vpn st :
  page_table_query NO_MAPPING pt vpn st =
  match walk (mem st) 1 (root_of pt) (vpn_path vpn) with
  | WFault => Fault
  | WStop _ _ _ => Done NO_MAPPING st
  | WNode a =>
      if valid_addr (a + 8 * vpn_index vpn 5)
      then Done (lookup NO_MAPPING (mem st) pt vpn) st
      else Fault
  end.
Proof.
  unfold page_table_query, lookup. rewrite first_index. unfold bind at 1.
  change loop_fuel with (S (4 + 0)).
  rewrite query_loop_walk by reflexivity. fold (vpn_path vpn). fold (root_of pt).
  destruct (walk (mem st) 1 (root_of pt) (vpn_path vpn)); try reflexivity.
  unfold bind, load, ret.
  destruct (valid_addr (curr_pt + 8 * vpn_index vpn 5)); [|reflexivity].
  destruct (mem st (curr_pt + 8 * vpn_index vpn 5) mod 2 =? 1); reflexivity.
Qed.

End QueryWalk.

(** Destroying is a walk followed by one store of zero, at the entry
    where the walk stopped. *)
Lemma destroy_walk root vpn st :
  destroy_virtual_memory_mapping root vpn st =
  match walk (mem st) 1 root (vpn_path vpn) with
  | WFault => Fault
  | WStop _ c j => store c j 0 st
  | WNode a => store a (vpn_index vpn 5) 0 st
  end.
Proof.
  unfold destroy_virtual_memory_mapping. rewrite first_index. unfold bind.
  change loop_fuel with (S (4 + 0)).
  rewrite destroy_loop_walk by reflexivity. fold (vpn_path vpn).
  destruct (walk (mem st) 1 root (vpn_path vpn)); reflexivity.
Qed.

(** ** Entries *)

Lemma pow52 : 2 ^ 52 = 4503599627370496.
Proof. reflexivity. Qed.

Lemma pow64 : 2 ^ 64 = 4096 * 4503599627370496.
Proof. reflexivity. Qed.

Lemma shl12 n : Z.shiftl n 12 = 4096 * n.
Proof. rewrite Z.shiftl_mul_pow2 by lia. change (2 ^ 12) with 4096. lia. Qed.

(** The entry written for page number [n]: the low 52 bits of [n] in
    bits 12-63, valid bit set. *)
Lemma entry_word n : add64 (shl64 n 12) 1 = 4096 * (n mod 2 ^ 52) + 1.
Proof.
  unfold add64, shl64, wrap64. rewrite shl12, pow64, pow52.
  rewrite Z.mul_mod_distr_l by lia.
  pose proof (Z.mod_pos_bound n 4503599627370496 ltac:(lia)).
  apply Z.mod_small. lia.
Qed.

Lemma entry_word_small n :
  0 <= n < 2 ^ 52 -> add64 (shl64 n 12) 1 = 4096 * n + 1.
Proof. intro H. rewrite entry_word, Z.mod_small by exact H. reflexivity. Qed.

Lemma entry_odd n : (4096 * n + 1) mod 2 = 1.
Proof.
  replace (4096 * n + 1) with (1 + (2048 * n) * 2) by lia.
  rewrite Z.mod_add by lia. reflexivity.
Qed.

Lemma entry_target n :
  0 <= n < 2 ^ 52 -> phys_to_virt (sub64 (4096 * n + 1) 1) = 4096 * n.
Proof.
  rewrite pow52. intro H. unfold phys_to_virt, sub64, wrap64.
  replace (4096 * n + 1 - 1) with (4096 * n) by lia.
  apply Z.mod_small. rewrite pow64. lia.
Qed.

Lemma entry_page n : Z.shiftr (4096 * n + 1) 12 = n.
Proof.
  rewrite Z.shiftr_div_pow2 by lia. change (2 ^ 12) with 4096.
  symmetry. apply Z.div_unique with (r := 1); lia.
Qed.

Lemma pte_ok_entry n : pte_ok (add64 (shl64 n 12) 1).
Proof.
  right. exists (n mod 2 ^ 52). split.
  - apply Z.mod_pos_bound. reflexivity.
  - rewrite entry_word, shl12. reflexivity.
Qed.

Lemma pte_ok_zero : pte_ok 0.
Proof. now left. Qed.

(** An invalid well-formed entry is the zero word. *)
Lemma pte_ok_invalid e : pte_ok e -> e mod 2 = 0 -> e = 0.
Proof.
  intros [H | (n & _ & H)] He; [assumption|].
  subst e. rewrite shl12, entry_odd in He. discriminate.
Qed.

(** A valid well-formed entry holds a 52-bit page number. *)
Lemma pte_ok_valid e :
  pte_ok e -> e mod 2 <> 0 ->
  exists n, 0 <= n < 2 ^ 52 /\ e = 4096 * n + 1.
Proof.
  intros [H | (n & Hn & H)] He.
  - subst e. now elim He.
  - exists n. rewrite shl12 in H. auto.
Qed.

Lemma slot_valid f j :
  0 <= f < 2 ^ 52 -> index_ok j -> valid_addr (4096 * f + 8 * j) = true.
Proof.
  rewrite pow52. unfold index_ok, valid_addr. intros Hf Hj.
  rewrite pow64.
  replace (4096 * f + 8 * j) with ((512 * f + j) * 8) by lia.
  rewrite Z.mod_mul by lia.
  rewrite !andb_true_iff, !Z.leb_le, Z.eqb_eq. lia.
Qed.

(** ** Walking a modified memory *)

Lemma upd_same m a v : upd m a v a = v.
Proof. unfold upd. now rewrite Z.eqb_refl. Qed.

Lemma upd_other m a v x : x <> a -> upd m a v x = m x.
Proof. unfold upd. intro H. apply Z.eqb_neq in H. now rewrite H. Qed.

Lemma walk_ext m m' :
  (forall a, m a = m' a) ->
  forall p i cur, walk m i cur p = walk m' i cur p.
Proof.
  intros E p. induction p as [|j p IH]; intros i cur; [reflexivity|].
  rewrite !walk_cons, <- E.
  destruct (valid_addr (cur + 8 * j)); [|reflexivity].
  destruct (m (cur + 8 * j) mod 2 =? 0); [reflexivity | apply IH].
Qed.

Lemma walk_app m p q : forall i cur,
  walk m i cur (p ++ q) =
  match walk m i cur p with
  | WNode a => walk m (i + Z.of_nat (length p)) a q
  | r => r
  end.
Proof.
  induction p as [|j p IH]; intros i cur.
  - simpl. now rewrite Z.add_0_r.
  - rewrite <- app_comm_cons, !walk_cons.
    destruct (valid_addr (cur + 8 * j)); [|reflexivity].
    destruct (m (cur + 8 * j) mod 2 =? 0); [reflexivity|].
    rewrite IH. destruct (walk m (i + 1) _ p); try reflexivity.
    f_equal. cbn [length]. lia.
Qed.

(** A store at slot [s] changes a walk only if the walk reads [s]. *)
Lemma walk_store m s x : forall q i cur,
  walk (upd m s x) i cur q = walk m i cur q \/
  exists q1 j q2 b,
    q = q1 ++ j :: q2 /\ walk m i cur q1 = WNode b /\ b + 8 * j = s.
Proof.
  induction q as [|j q IH]; intros i cur; [now left|].
  destruct (Z.eq_dec (cur + 8 * j) s) as [E | N].
  - right. exists [], j, q, cur. auto.
  - rewrite !walk_cons, upd_other by exact N.
    destruct (valid_addr (cur + 8 * j)) eqn:V; [|now left].
    destruct (m (cur + 8 * j) mod 2 =? 0) eqn:P; [now left|].
    destruct (IH (i + 1) (phys_to_virt (sub64 (m (cur + 8 * j)) 1)))
      as [H | (q1 & j' & q2 & b & -> & Hw & Hs)]; [now left|].
    right. exists (j :: q1), j', q2, b. repeat split; try assumption.
    rewrite walk_cons, V, P. exact Hw.
Qed.

(** Where a walk stops, it has followed valid entries to a node and found
    an invalid entry there. *)
Lemma walk_stop m q : forall i0 cur i c j,
  walk m i0 cur q = WStop i c j ->
  exists q1 q2,
    q = q1 ++ j :: q2 /\ walk m i0 cur q1 = WNode c /\
    valid_addr (c + 8 * j) = true /\ m (c + 8 * j) mod 2 = 0 /\
    i = i0 + Z.of_nat (length q1).
Proof.
  induction q as [|k q IH]; intros i0 cur i c j H; [discriminate|].
  rewrite walk_cons in H.
  destruct (valid_addr (cur + 8 * k)) eqn:V; [|discriminate].
  destruct (m (cur + 8 * k) mod 2 =? 0) eqn:P.
  - injection H as <- <- <-. exists [], q. apply Z.eqb_eq in P.
    repeat split; auto. simpl. lia.
  - apply IH in H as (q1 & q2 & -> & Hw & Hv & He & Hi).
    exists (k :: q1), q2. repeat split; auto.
    + rewrite walk_cons, V, P. exact Hw.
    + cbn [length]. lia.
Qed.

(** After a zero has been stored at slot [s], a walk either does not
    read [s] and is what it was, or stops at [s]. *)
Lemma walk_store_zero m s : forall q i cur,
  walk (upd m s 0) i cur q = walk m i cur q \/
  exists i' c j, walk (upd m s 0) i cur q = WStop i' c j /\ c + 8 * j = s.
Proof.
  induction q as [|k q IH]; intros i cur; [now left|].
  rewrite !walk_cons.
  destruct (valid_addr (cur + 8 * k)) eqn:V; [|now left].
  destruct (Z.eq_dec (cur + 8 * k) s) as [E | N].
  - right. exists i, cur, k. rewrite E, upd_same. auto.
  - rewrite upd_other by exact N.
    destruct (m (cur + 8 * k) mod 2 =? 0); [now left | apply IH].
Qed.

Lemma path_ok_app p q : path_ok (p ++ q) <-> path_ok p /\ path_ok q.
Proof. apply Forall_app. Qed.

(** ** Consequences of the invariant *)

Section Invariant.

Variable pt : Z.
Variable st : state.
Hypothesis INV : table_inv pt st.

Let m := mem st.
Let A := root_of pt.

(** Every slot of a node can be read and written. *)
Lemma node_slot_valid p a j :
  path_ok p -> (length p <= 4)%nat -> walk m 1 A p = WNode a ->
  index_ok j -> valid_addr (a + 8 * j) = true.
Proof.
  intros Hp Hl Hw Hj.
  destruct (inv_nodes _ _ INV p a Hp Hl Hw) as [(f & Hf & ->) _].
  pose proof (inv_capacity _ _ INV). apply slot_valid; [lia | exact Hj].
Qed.

(** A slot belongs to one node, and a node lies on one path. *)
Lemma slot_owner p q a b i j :
  path_ok p -> path_ok q -> (length p <= 4)%nat -> (length q <= 4)%nat ->
  walk m 1 A p = WNode a -> walk m 1 A q = WNode b ->
  index_ok i -> index_ok j -> a + 8 * i = b + 8 * j ->
  p = q /\ i = j /\ a = b.
Proof.
  intros Hp Hq Lp Lq Wp Wq Hi Hj E.
  destruct (inv_nodes _ _ INV p a Hp Lp Wp) as [(f & Hf & ->) _].
  destruct (inv_nodes _ _ INV q b Hq Lq Wq) as [(g & Hg & ->) _].
  unfold index_ok in *.
  assert (f = g) by lia. subst g. assert (i = j) by lia. subst j.
  split; [|auto]. eapply (inv_tree _ _ INV); eassumption.
Qed.

(** Slots of allocated frames lie below the frames still to be handed
    out. *)
Lemma node_slot_below p a j :
  path_ok p -> (length p <= 4)%nat -> walk m 1 A p = WNode a ->
  index_ok j -> 0 <= a + 8 * j < 4096 * next_frame st.
Proof.
  intros Hp Hl Hw Hj.
  destruct (inv_nodes _ _ INV p a Hp Hl Hw) as [(f & Hf & ->) _].
  unfold index_ok in Hj. lia.
Qed.

(** A store into a slot of the node at the end of path [p] does not
    change the walk along a path that does not pass through that slot. *)
Lemma walk_store_off p c i x q :
  path_ok p -> (length p <= 4)%nat -> walk m 1 A p = WNode c -> index_ok i ->
  path_ok q -> (length q <= 4)%nat ->
  (forall q2, q <> p ++ i :: q2) ->
  walk (upd m (c + 8 * i) x) 1 A q = walk m 1 A q.
Proof.
  intros Hp Lp Wp Hi Hq Lq Hn.
  destruct (walk_store m (c + 8 * i) x q 1 A)
    as [H | (q1 & j & q2 & b & E & Wq & Hs)]; [exact H|].
  exfalso. subst q. apply path_ok_app in Hq as [Hq1 Hq2].
  inversion Hq2; subst.
  rewrite length_app in Lq.
  destruct (slot_owner q1 p b c j i) as (-> & -> & _); auto; try lia.
  now apply (Hn q2).
Qed.

Lemma walk_store_prefix p c i x :
  path_ok p -> (length p <= 4)%nat -> walk m 1 A p = WNode c -> index_ok i ->
  walk (upd m (c + 8 * i) x) 1 A p = WNode c.
Proof.
  intros Hp Lp Wp Hi. rewrite (walk_store_off p c i x p); auto.
  intros q2 E. apply (f_equal (@length Z)) in E.
  rewrite length_app in E. cbn [length] in E. lia.
Qed.

End Invariant.

Lemma table_inv_same pt s t :
  same_state s t -> table_inv pt s -> table_inv pt t.
Proof.
  intros [En Em] I.
  assert (W : forall p, walk (mem t) 1 (root_of pt) p = walk (mem s) 1 (root_of pt) p)
    by (intro p; apply walk_ext; auto).
  constructor.
  - rewrite <- En. apply (inv_capacity _ _ I).
  - intros a. rewrite <- En, <- Em. apply (inv_fresh _ _ I).
  - intros p a Hp Hl Hw. rewrite W in Hw.
    destruct (inv_nodes _ _ I p a Hp Hl Hw) as [(f & Hf & E) He].
    split.
    + exists f. rewrite <- En. auto.
    + intros j Hj. rewrite <- Em. auto.
  - intros p q a Hp Hq Lp Lq Wp Wq. rewrite W in Wp, Wq.
    eapply (inv_tree _ _ I); eassumption.
Qed.

(** A freshly allocated, zeroed root is a well-formed table. *)
Lemma fresh_table_inv pt st : fresh_table pt st -> table_inv pt st.
Proof.
  intros (Hc & (f & Hf & Er) & Hz & Hfr).
  assert (W : forall p a, path_ok p ->
              walk (mem st) 1 (root_of pt) p = WNode a ->
              p = [] /\ a = root_of pt).
  { intros [|j p] a Hp Hw.
    - injection Hw as <-. auto.
    - inversion Hp; subst. rewrite walk_cons, Hz in Hw by assumption.
      change (0 mod 2 =? 0) with true in Hw.
      destruct (valid_addr _); discriminate. }
  constructor; auto.
  - intros p a Hp _ Hw. destruct (W p a Hp Hw) as [-> ->].
    split; [eauto|]. intros j Hj. rewrite Hz by assumption. apply pte_ok_zero.
  - intros p q a Hp Hq _ _ Wp Wq.
    destruct (W p a Hp Wp) as [-> _]. destruct (W q a Hq Wq) as [-> _].
    reflexivity.
Qed.

Lemma boot_fresh : fresh_table 1 boot.
Proof.
  unfold fresh_table, boot; simpl. repeat split; try lia; try reflexivity.
  exists 1. split; [lia | reflexivity].
Qed.

Lemma boot_inv : table_inv 1 boot.
Proof. apply fresh_table_inv, boot_fresh. Qed.

(** ** Linking a new node

    The first half of a create step: the pointer entry at index [i] of
    the node [c] at the end of path [p] is invalid, a frame is taken from
    the allocator and its entry is written there. *)

Section Link.

Variable NO_MAPPING : Z.
Variable pt : Z.
Variable st : state.
Hypothesis INV : table_inv pt st.
Variables (p : list Z) (c i : Z).
Hypothesis Hp : path_ok p.
Hypothesis Lp : (length p <= 3)%nat.
Hypothesis Wp : walk (mem st) 1 (root_of pt) p = WNode c.
Hypothesis Hi : index_ok i.
Hypothesis He : mem st (c + 8 * i) mod 2 = 0.
Hypothesis Hroom : next_frame st + 1 <= 2 ^ 52.

Let Lp4 : (length p <= 4)%nat.
Proof. lia. Qed.

Let frame_ok : 0 <= next_frame st < 2 ^ 52.
Proof. pose proof (inv_capacity _ _ INV). lia. Qed.

Let slot_below : 0 <= c + 8 * i < 4096 * next_frame st.
Proof. exact (node_slot_below pt st INV p c i Hp Lp4 Wp Hi). Qed.

Lemma link_walk q :
  path_ok q -> (length q <= 4)%nat ->
  walk (mem (linked st c i)) 1 (root_of pt) q = walk (mem st) 1 (root_of pt) q \/
  exists q2,
    q = p ++ i :: q2 /\
    (exists i0, walk (mem st) 1 (root_of pt) q = WStop i0 c i) /\
    (q2 = [] ->
     walk (mem (linked st c i)) 1 (root_of pt) q = WNode (4096 * next_frame st)) /\
    (forall j q3, q2 = j :: q3 ->
     exists i1, walk (mem (linked st c i)) 1 (root_of pt) q
                = WStop i1 (4096 * next_frame st) j).
Proof.
  intros Hq Lq. unfold linked; cbn [mem].
  destruct (walk_store (mem st) (c + 8 * i) (4096 * next_frame st + 1)
              q 1 (root_of pt))
    as [H | (q1 & j & q2 & b & E & Wq & Hs)]; [now left|].
  right. subst q. apply path_ok_app in Hq as [Hq1 Hq2].
  inversion Hq2 as [|? ? Hj Hq2']; subst.
  rewrite length_app in Lq. cbn [length] in Lq.
  destruct (slot_owner pt st INV q1 p b c j i) as (-> & -> & ->);
    auto; try lia.
  assert (V : valid_addr (c + 8 * i) = true)
    by exact (node_slot_valid pt st INV p c i Hp Lp4 Wp Hi).
  exists q2. split; [reflexivity|]. split; [|split].
  - exists (1 + Z.of_nat (length p)).
    rewrite walk_app, Wp, walk_cons, V, He. reflexivity.
  - intros ->. rewrite walk_app, (walk_store_prefix pt st INV) by auto.
    rewrite walk_cons, V, upd_same, entry_odd. cbn [Z.eqb].
    rewrite entry_target by exact frame_ok. reflexivity.
  - intros k q3 ->. inversion Hq2' as [|? ? Hk _]; subst.
    rewrite walk_app, (walk_store_prefix pt st INV) by auto.
    rewrite walk_cons, V, upd_same, entry_odd. cbn [Z.eqb].
    rewrite entry_target by exact frame_ok.
    rewrite walk_cons, slot_valid by auto.
    unfold index_ok in Hk.
    rewrite upd_other by lia.
    rewrite (inv_fresh _ _ INV) by lia.
    eexists. reflexivity.
Qed.

Lemma link_reaches :
  walk (mem (linked st c i)) 1 (root_of pt) (p ++ [i]) = WNode (4096 * next_frame st).
Proof.
  assert (Hq : path_ok (p ++ [i])).
  { apply path_ok_app. split; [assumption|]. constructor; [assumption|constructor]. }
  assert (Lq : (length (p ++ [i]) <= 4)%nat).
  { rewrite length_app. cbn [length]. lia. }
  destruct (link_walk (p ++ [i]) Hq Lq) as [H | (q2 & E & _ & H & _)].
  - exfalso.
    assert (V : valid_addr (c + 8 * i) = true)
      by exact (node_slot_valid pt st INV p c i Hp Lp4 Wp Hi).
    rewrite (walk_app (mem st)), Wp, walk_cons, V, He in H.
    unfold linked in H; cbn [mem] in H.
    rewrite walk_app, (walk_store_prefix pt st INV), walk_cons in H by auto.
    rewrite V, upd_same, entry_odd in H. cbn [Z.eqb] in H.
    cbn [walk] in H. discriminate.
  - apply app_inv_head in E. injection E as <-. now apply H.
Qed.

Lemma link_inv : table_inv pt (linked st c i).
Proof.
  constructor.
  - unfold linked; cbn [next_frame]. lia.
  - intros a Ha. unfold linked in *; cbn [next_frame mem] in *.
    rewrite upd_other by lia. apply (inv_fresh _ _ INV). lia.
  - intros q a Hq Lq Wq.
    destruct (link_walk q Hq Lq) as [H | (q2 & -> & _ & H0 & H1)].
    + rewrite H in Wq.
      destruct (inv_nodes _ _ INV q a Hq Lq Wq) as [(f & Hf & ->) Hn].
      split.
      * exists f. unfold linked; cbn [next_frame]. split; [lia | reflexivity].
      * intros j Hj. unfold linked; cbn [mem]. unfold upd.
        destruct (_ =? _); [|auto].
        right. exists (next_frame st). rewrite shl12. auto.
    + destruct q2 as [|j q3].
      * rewrite H0 in Wq by reflexivity.
        assert (Ea : a = 4096 * next_frame st) by congruence. subst a. split.
        -- exists (next_frame st). unfold linked; cbn [next_frame].
           split; [lia | reflexivity].
        -- intros j Hj. unfold linked; cbn [mem]. unfold index_ok in Hj.
           rewrite upd_other by lia.
           rewrite (inv_fresh _ _ INV) by lia. apply pte_ok_zero.
      * destruct (H1 j q3 eq_refl) as [i1 H]. rewrite H in Wq. discriminate.
  - intros q r a Hq Hr Lq Lr Wq Wr.
    destruct (link_walk q Hq Lq) as [H | (q2 & -> & _ & H0 & H1)];
    destruct (link_walk r Hr Lr) as [K | (r2 & -> & _ & K0 & K1)].
    + rewrite H in Wq. rewrite K in Wr. eapply (inv_tree _ _ INV); eassumption.
    + exfalso. rewrite H in Wq.
      destruct (inv_nodes _ _ INV q a Hq Lq Wq) as [(f & Hf & ->) _].
      destruct r2 as [|j r3].
      * rewrite K0 in Wr by reflexivity.
        assert (E : 4096 * next_frame st = 4096 * f) by congruence. lia.
      * destruct (K1 j r3 eq_refl) as [i1 K]. rewrite K in Wr. discriminate.
    + exfalso. rewrite K in Wr.
      destruct (inv_nodes _ _ INV r a Hr Lr Wr) as [(f & Hf & ->) _].
      destruct q2 as [|j q3].
      * rewrite H0 in Wq by reflexivity.
        assert (E : 4096 * next_frame st = 4096 * f) by congruence. lia.
      * destruct (H1 j q3 eq_refl) as [i1 H]. rewrite H in Wq. discriminate.
    + destruct q2 as [|j q3].
      * destruct r2 as [|k r3]; [reflexivity|].
        destruct (K1 k r3 eq_refl) as [i1 K]. rewrite K in Wr. discriminate.
      * destruct (H1 j q3 eq_refl) as [i1 H]. rewrite H in Wq. discriminate.
Qed.

(** Linking a node changes the answer of no query. *)
Lemma link_lookup vpn :
  lookup NO_MAPPING (mem (linked st c i)) pt vpn = lookup NO_MAPPING (mem st) pt vpn.
Proof.
  unfold lookup.
  assert (Hq : path_ok (vpn_path vpn)) by apply path_from_ok.
  assert (Lq : length (vpn_path vpn) = 4%nat) by apply path_from_length.
  destruct (link_walk (vpn_path vpn) Hq ltac:(lia))
    as [H | (q2 & E & (i0 & H) & H0 & H1)].
  - rewrite H.
    destruct (walk (mem st) 1 (root_of pt) (vpn_path vpn)) as [| |a] eqn:W;
      try reflexivity.
    unfold linked; cbn [mem]. rewrite upd_other; [reflexivity|].
    intro E.
    destruct (slot_owner pt st INV (vpn_path vpn) p a c (vpn_index vpn 5) i)
      as (Ep & _); auto using vpn_index_ok; try lia.
    rewrite Ep in Lq. lia.
  - rewrite H. destruct q2 as [|j q3].
    + rewrite H0 by reflexivity. unfold linked; cbn [mem].
      pose proof (vpn_index_ok vpn 5) as Hk. unfold index_ok in Hk.
      rewrite upd_other by lia.
      rewrite (inv_fresh _ _ INV) by lia. reflexivity.
    + destruct (H1 j q3 eq_refl) as [i1 K]. rewrite K. reflexivity.
Qed.

End Link.

(** ** Writing a leaf entry

    The last statement of create and destroy: a well-formed word [x] is
    stored at index [i] of the level-5 node [c], the node at the end of
    the four-index path [p]. *)

Section Leaf.

Variable NO_MAPPING : Z.
Variable pt : Z.
Variable st : state.
Hypothesis INV : table_inv pt st.
Variables (p : list Z) (c i x : Z).
Hypothesis Hp : path_ok p.
Hypothesis Lp : length p = 4%nat.
Hypothesis Wp : walk (mem st) 1 (root_of pt) p = WNode c.
Hypothesis Hi : index_ok i.
Hypothesis Hx : pte_ok x.

Let Lp4 : (length p <= 4)%nat.
Proof. lia. Qed.

Lemma leaf_walk q :
  path_ok q -> (length q <= 4)%nat ->
  walk (mem (set_mem st (c + 8 * i) x)) 1 (root_of pt) q
  = walk (mem st) 1 (root_of pt) q.
Proof.
  intros Hq Lq. cbn [set_mem mem].
  apply (walk_store_off pt st INV p c i x q); auto.
  intros q2 E. apply (f_equal (@length Z)) in E.
  rewrite length_app in E. cbn [length] in E. lia.
Qed.

Lemma leaf_inv : table_inv pt (set_mem st (c + 8 * i) x).
Proof.
  constructor.
  - exact (inv_capacity _ _ INV).
  - intros a Ha. cbn [set_mem mem next_frame] in *.
    pose proof (node_slot_below pt st INV p c i Hp Lp4 Wp Hi).
    rewrite upd_other by lia. now apply (inv_fresh _ _ INV).
  - intros q a Hq Lq Wq. rewrite leaf_walk in Wq by assumption.
    destruct (inv_nodes _ _ INV q a Hq Lq Wq) as [Hf Hn].
    split; [exact Hf|].
    intros j Hj. cbn [set_mem mem]. unfold upd.
    destruct (_ =? _); auto.
  - intros q r a Hq Hr Lq Lr Wq Wr.
    rewrite leaf_walk in Wq, Wr by assumption.
    eapply (inv_tree _ _ INV); eassumption.
Qed.

(** The query of the page whose leaf entry was written reads [x]. *)
Lemma leaf_lookup_hit vpn :
  vpn_path vpn = p -> vpn_index vpn 5 = i ->
  lookup NO_MAPPING (mem (set_mem st (c + 8 * i) x)) pt vpn
  = if x mod 2 =? 1 then Z.shiftr x 12 else NO_MAPPING.
Proof.
  intros Ep Ei. unfold lookup. rewrite Ep, leaf_walk, Wp by (auto; lia).
  rewrite Ei. cbn [set_mem mem]. rewrite upd_same. reflexivity.
Qed.

(** The query of any page with another path or another leaf index is
    unchanged. *)
Lemma leaf_lookup_miss vpn :
  vpn_path vpn <> p \/ vpn_index vpn 5 <> i ->
  lookup NO_MAPPING (mem (set_mem st (c + 8 * i) x)) pt vpn
  = lookup NO_MAPPING (mem st) pt vpn.
Proof.
  intros Hne. unfold lookup.
  assert (Hq : path_ok (vpn_path vpn)) by apply path_from_ok.
  assert (Lq : length (vpn_path vpn) = 4%nat) by apply path_from_length.
  rewrite leaf_walk by (auto; lia).
  destruct (walk (mem st) 1 (root_of pt) (vpn_path vpn)) as [| |a] eqn:W;
    try reflexivity.
  cbn [set_mem mem]. rewrite upd_other; [reflexivity|].
  intro E.
  destruct (slot_owner pt st INV (vpn_path vpn) p a c (vpn_index vpn 5) i)
    as (E1 & E2 & _); auto using vpn_index_ok; try lia.
  destruct Hne; contradiction.
Qed.

End Leaf.

(** ** The create loop *)

Lemma path_from_snoc vpn n : forall i,
  path_from vpn i (S n) = path_from vpn i n ++ [vpn_index vpn (i + Z.of_nat n)].
Proof.
  induction n as [|n IH]; intro i.
  - simpl. now rewrite Z.add_0_r.
  - change (path_from vpn i (S (S n)))
      with (vpn_index vpn i :: path_from vpn (i + 1) (S n)).
    rewrite IH. replace (i + Z.of_nat (S n)) with (i + 1 + Z.of_nat n) by lia.
    reflexivity.
Qed.

Lemma create_loop_eq fuel vpn i curr_pt pte :
  create_loop (S fuel) vpn i curr_pt pte =
  (if i <? 5 then
     (e <- load curr_pt pte ;;
      (if e mod 2 =? 0 then
         f <- alloc_page_frame ;;
         store curr_pt pte (add64 (shl64 f 12) 1)
       else ret tt) ;;;
      e' <- load curr_pt pte ;;
      create_loop fuel vpn (i + 1)
        (phys_to_virt (sub64 e' 1))
        (Z.land (Z.shiftr vpn (36 - i * 9)) EXTRACT_9BITS))
   else ret (i, curr_pt, pte)).
Proof. reflexivity. Qed.

Section CreateLoop.

Variable NO_MAPPING : Z.
Variable pt : Z.
Variable vpn : Z.

(** The loop of create, entered with counter [i] at the node that the
    first [i - 1] indices of the page lead to, runs to [i = 5], keeps the
    table well formed, ends at the level-5 node of the page, takes at most
    one frame per remaining level and changes the answer of no query. *)
Lemma create_loop_inv extra n : forall i cur st,
  i + Z.of_nat n = 5 -> 1 <= i ->
  table_inv pt st ->
  walk (mem st) 1 (root_of pt) (path_from vpn 1 (Z.to_nat (i - 1))) = WNode cur ->
  next_frame st + Z.of_nat n <= 2 ^ 52 ->
  exists st' a,
    create_loop (S (n + extra)) vpn i cur (vpn_index vpn i) st
    = Done (5, a, vpn_index vpn 5) st' /\
    table_inv pt st' /\
    walk (mem st') 1 (root_of pt) (vpn_path vpn) = WNode a /\
    (forall v, lookup NO_MAPPING (mem st') pt v = lookup NO_MAPPING (mem st) pt v) /\
    next_frame st <= next_frame st' <= next_frame st + Z.of_nat n.
Proof.
  induction n as [|n IH]; intros i cur st Hi H1 INV Wp Hroom;
    rewrite create_loop_eq.
  - assert (i = 5) by lia. subst i. exists st, cur.
    split; [reflexivity|]. split; [assumption|]. split; [exact Wp|].
    split; [reflexivity | lia].
  - assert (Hlt : (i <? 5) = true) by (apply Z.ltb_lt; lia). rewrite Hlt.
    change (S n + extra)%nat with (S (n + extra)).
    set (p := path_from vpn 1 (Z.to_nat (i - 1))) in *.
    assert (Hp : path_ok p) by apply path_from_ok.
    assert (Lp : length p = Z.to_nat (i - 1)) by apply path_from_length.
    assert (Lp3 : (length p <= 3)%nat) by lia.
    assert (Lp4 : (length p <= 4)%nat) by lia.
    pose proof (vpn_index_ok vpn i) as Hj.
    assert (V : valid_addr (cur + 8 * vpn_index vpn i) = true)
      by exact (node_slot_valid pt st INV p cur _ Hp Lp4 Wp Hj).
    assert (Enext : path_from vpn 1 (Z.to_nat (i + 1 - 1)) = p ++ [vpn_index vpn i]).
    { replace (Z.to_nat (i + 1 - 1)) with (S (Z.to_nat (i - 1))) by lia.
      rewrite path_from_snoc. unfold p. do 3 f_equal. lia. }
    unfold bind at 1. unfold load at 1. rewrite V.
    destruct (mem st (cur + 8 * vpn_index vpn i) mod 2 =? 0) eqn:P.
    + apply Z.eqb_eq in P.
      pose proof (inv_capacity _ _ INV) as Hc.
      unfold bind, alloc_page_frame, store, load, set_mem; cbn [mem next_frame].
      rewrite V. cbn [mem next_frame].
      rewrite upd_same, entry_word_small, entry_target, next_index by lia.
      assert (Hroom1 : next_frame st + 1 <= 2 ^ 52) by lia.
      pose proof (link_inv pt st INV p cur _ Hp Lp3 Wp Hj P Hroom1) as INV'.
      pose proof (link_reaches pt st INV p cur _ Hp Lp3 Wp Hj P Hroom1) as W'.
      fold (linked st cur (vpn_index vpn i)).
      destruct (IH (i + 1) (4096 * next_frame st)
                  (linked st cur (vpn_index vpn i)))
        as (st' & a & E & I' & Wa & Hl & Hn); auto; try lia.
      * rewrite Enext. exact W'.
      * unfold linked; cbn [next_frame]. lia.
      * exists st', a. rewrite E.
        split; [reflexivity|]. split; [assumption|]. split; [assumption|].
        split.
        -- intro v. rewrite Hl.
           apply (link_lookup NO_MAPPING pt st INV p cur _ Hp Lp3 Wp Hj P Hroom1).
        -- unfold linked in Hn; cbn [next_frame] in Hn. lia.
    + unfold bind, ret, load. rewrite V, next_index.
      destruct (IH (i + 1)
                  (phys_to_virt (sub64 (mem st (cur + 8 * vpn_index vpn i)) 1)) st)
        as (st' & a & E & I' & Wa & Hl & Hn); auto; try lia.
      * rewrite Enext, walk_app, Wp, walk_cons, V, P. reflexivity.
      * exists st', a. rewrite E.
        split; [reflexivity|]. split; [assumption|]. split; [assumption|].
        split; [assumption | lia].
Qed.

End CreateLoop.

(** In any state, a destroy that returns has stored one zero, at a slot
    where every later walk of the same page stops or finds its leaf. *)
Lemma destroy_done root vpn st st' :
  destroy_virtual_memory_mapping root vpn st = Done tt st' ->
  exists s,
    st' = set_mem st s 0 /\ valid_addr s = true /\
    (walk (mem st') 1 root (vpn_path vpn) = WNode (s - 8 * vpn_index vpn 5) \/
     exists i c j,
       walk (mem st') 1 root (vpn_path vpn) = WStop i c j /\ c + 8 * j = s).
Proof.
  rewrite destroy_walk.
  destruct (walk (mem st) 1 root (vpn_path vpn)) as [|i c j|a] eqn:W;
    [discriminate| |]; unfold store;
    destruct (valid_addr _) eqn:V; try discriminate; intro H.
  - assert (E' : st' = set_mem st (c + 8 * j) 0) by congruence. subst st'.
    exists (c + 8 * j). split; [reflexivity|]. split; [exact V|].
    right. cbn [set_mem mem].
    destruct (walk_store_zero (mem st) (c + 8 * j) (vpn_path vpn) 1 root)
      as [E | H']; [|exact H'].
    exists i, c, j. rewrite E, W. auto.
  - assert (E' : st' = set_mem st (a + 8 * vpn_index vpn 5) 0) by congruence.
    subst st'.
    exists (a + 8 * vpn_index vpn 5). split; [reflexivity|]. split; [exact V|].
    cbn [set_mem mem].
    destruct (walk_store_zero (mem st) (a + 8 * vpn_index vpn 5)
                (vpn_path vpn) 1 root) as [E | H']; [left | right; exact H'].
    rewrite E, W. f_equal. lia.
Qed.

(** ** Which bits of a page number the walk uses *)

Lemma vpn_index_low v1 v2 k :
  1 <= k <= 5 -> v1 mod 2 ^ 45 = v2 mod 2 ^ 45 ->
  vpn_index v1 k = vpn_index v2 k.
Proof.
  intros Hk E. unfold vpn_index, EXTRACT_9BITS. change 511 with (Z.ones 9).
  apply Z.bits_inj'. intros n Hn.
  rewrite !Z.land_spec, !Z.shiftr_spec by lia.
  destruct (Z.lt_ge_cases n 9) as [Hlt | Hge].
  - f_equal.
    rewrite <- (Z.mod_pow2_bits_low v1 45) by lia.
    rewrite <- (Z.mod_pow2_bits_low v2 45) by lia.
    now rewrite E.
  - rewrite Z.ones_spec_high by lia. now rewrite !andb_false_r.
Qed.

Lemma vpn_index_bit v n :
  0 <= n < 45 ->
  Z.testbit v n = Z.testbit (vpn_index v (5 - n / 9)) (n mod 9).
Proof.
  intro Hn. unfold vpn_index, EXTRACT_9BITS. change 511 with (Z.ones 9).
  pose proof (Z.mod_pos_bound n 9 ltac:(lia)).
  pose proof (Z.div_mod n 9 ltac:(lia)).
  rewrite Z.land_spec, Z.shiftr_spec, Z.ones_spec_low, andb_true_r by lia.
  f_equal. lia.
Qed.

Lemma vpn_low_indices v1 v2 :
  (forall k, 1 <= k <= 5 -> vpn_index v1 k = vpn_index v2 k) ->
  v1 mod 2 ^ 45 = v2 mod 2 ^ 45.
Proof.
  intro H. apply Z.bits_inj'. intros n Hn.
  destruct (Z.lt_ge_cases n 45) as [Hlt | Hge].
  - rewrite !Z.mod_pow2_bits_low by lia.
    rewrite (vpn_index_bit v1 n), (vpn_index_bit v2 n) by lia.
    rewrite H; [reflexivity|].
    pose proof (Z.div_mod n 9 ltac:(lia)).
    pose proof (Z.mod_pos_bound n 9 ltac:(lia)). lia.
  - rewrite !Z.mod_pow2_bits_high by lia. reflexivity.
Qed.

(** Two page numbers select the same five indices exactly when they agree
    in bits 0-44. *)
Lemma same_slot_low v1 v2 :
  (vpn_path v1 = vpn_path v2 /\ vpn_index v1 5 = vpn_index v2 5) <->
  v1 mod 2 ^ 45 = v2 mod 2 ^ 45.
Proof.
  split.
  - intros [Ep E5]. unfold vpn_path in Ep. cbn [path_from] in Ep.
    change (1 + 1) with 2 in Ep. change (2 + 1) with 3 in Ep.
    change (3 + 1) with 4 in Ep. injection Ep as E1 E2 E3 E4.
    apply vpn_low_indices. intros k Hk.
    assert (C : k = 1 \/ k = 2 \/ k = 3 \/ k = 4 \/ k = 5) by lia.
    destruct C as [-> | [-> | [-> | [-> | ->]]]]; assumption.
  - intro E. split.
    + unfold vpn_path. cbn [path_from].
      rewrite !(vpn_index_low v1 v2) by (cbn; lia || assumption).
      reflexivity.
    + apply vpn_index_low; [lia | assumption].
Qed.

(** ** The operations on a well-formed table *)

Lemma walk_fault m q : forall i0 cur,
  walk m i0 cur q = WFault ->
  exists q1 j q2 b,
    q = q1 ++ j :: q2 /\ walk m i0 cur q1 = WNode b /\
    valid_addr (b + 8 * j) = false.
Proof.
  induction q as [|k q IH]; intros i0 cur H; [discriminate|].
  rewrite walk_cons in H.
  destruct (valid_addr (cur + 8 * k)) eqn:V.
  - destruct (m (cur + 8 * k) mod 2 =? 0) eqn:P; [discriminate|].
    apply IH in H as (q1 & j & q2 & b & -> & Hw & Hv).
    exists (k :: q1), j, q2, b. repeat split; auto.
    rewrite walk_cons, V, P. exact Hw.
  - exists [], k, q, cur. auto.
Qed.

Section OnTables.

Variable NO_MAPPING : Z.
Variable pt : Z.
Variable st : state.
Hypothesis INV : table_inv pt st.

Lemma walk_defined q :
  path_ok q -> (length q <= 5)%nat ->
  walk (mem st) 1 (root_of pt) q <> WFault.
Proof.
  intros Hq Lq H.
  apply walk_fault in H as (q1 & j & q2 & b & -> & Hw & Hv).
  apply path_ok_app in Hq as [Hq1 Hq2]. inversion Hq2; subst.
  rewrite length_app in Lq. cbn [length] in Lq.
  assert (V : valid_addr (b + 8 * j) = true)
    by (apply (node_slot_valid pt st INV q1 b j); auto; lia).
  congruence.
Qed.

(** A query returns, with the memory untouched, what [lookup] reads. *)
Lemma query_defined vpn :
  page_table_query NO_MAPPING pt vpn st
  = Done (lookup NO_MAPPING (mem st) pt vpn) st.
Proof.
  rewrite query_walk. unfold lookup.
  assert (Hq : path_ok (vpn_path vpn)) by apply path_from_ok.
  assert (Lq : length (vpn_path vpn) = 4%nat) by apply path_from_length.
  pose proof (walk_defined (vpn_path vpn) Hq ltac:(lia)) as Hnf.
  destruct (walk (mem st) 1 (root_of pt) (vpn_path vpn)) as [| |a] eqn:W.
  - now elim Hnf.
  - reflexivity.
  - rewrite (node_slot_valid pt st INV (vpn_path vpn) a)
      by (auto using vpn_index_ok; lia).
    reflexivity.
Qed.

(** Creating a mapping returns; the table stays well formed, the page is
    mapped to the low 52 bits of [ppn], and every page that differs from
    it in some index keeps its answer. *)
Lemma create_defined vpn ppn :
  next_frame st + 4 <= 2 ^ 52 ->
  exists st',
    create_virtual_memory_mapping (root_of pt) vpn ppn st = Done tt st' /\
    table_inv pt st' /\
    lookup NO_MAPPING (mem st') pt vpn = ppn mod 2 ^ 52 /\
    (forall v, vpn_path v <> vpn_path vpn \/ vpn_index v 5 <> vpn_index vpn 5 ->
       lookup NO_MAPPING (mem st') pt v = lookup NO_MAPPING (mem st) pt v) /\
    next_frame st <= next_frame st' <= next_frame st + 4 /\
    exists a, walk (mem st') 1 (root_of pt) (vpn_path vpn) = WNode a.
Proof.
  intro Hroom. unfold create_virtual_memory_mapping.
  rewrite first_index. change loop_fuel with (S (4 + 0)).
  destruct (create_loop_inv NO_MAPPING pt vpn 0 4 1 (root_of pt) st)
    as (st1 & a & E & I1 & Wa & Hl & Hn); auto; try lia.
  unfold bind. rewrite E. unfold store.
  assert (Hq : path_ok (vpn_path vpn)) by apply path_from_ok.
  assert (Lq : length (vpn_path vpn) = 4%nat) by apply path_from_length.
  pose proof (vpn_index_ok vpn 5) as H5.
  rewrite (node_slot_valid pt st1 I1 (vpn_path vpn) a) by (auto; lia).
  eexists. split; [reflexivity|].
  split; [|split; [|split; [|split]]].
  - apply (leaf_inv pt st1 I1 (vpn_path vpn)); auto. apply pte_ok_entry.
  - rewrite (leaf_lookup_hit NO_MAPPING pt st1 I1 (vpn_path vpn)); auto.
    rewrite entry_word, entry_odd, entry_page. reflexivity.
  - intros v Hv.
    rewrite (leaf_lookup_miss NO_MAPPING pt st1 I1 (vpn_path vpn)); auto.
  - cbn [set_mem next_frame]. change (Z.of_nat 4) with 4 in Hn. exact Hn.
  - exists a. rewrite (leaf_walk pt st1 I1 (vpn_path vpn)) by (auto; lia).
    exact Wa.
Qed.

(** Destroying a mapping returns and stores one zero: over the invalid
    pointer entry at which the walk stopped, which is zero already, or
    over the leaf entry of the page. *)
Lemma destroy_defined vpn :
  exists s,
    destroy_virtual_memory_mapping (root_of pt) vpn st
    = Done tt (set_mem st s 0) /\
    table_inv pt (set_mem st s 0) /\
    ((exists i c j,
        walk (mem st) 1 (root_of pt) (vpn_path vpn) = WStop i c j /\
        1 <= i <= 4 /\ s = c + 8 * j /\ mem st s = 0) \/
     (exists a,
        walk (mem st) 1 (root_of pt) (vpn_path vpn) = WNode a /\
        s = a + 8 * vpn_index vpn 5)).
Proof.
  rewrite destroy_walk.
  assert (Hq : path_ok (vpn_path vpn)) by apply path_from_ok.
  assert (Lq : length (vpn_path vpn) = 4%nat) by apply path_from_length.
  pose proof (walk_defined (vpn_path vpn) Hq ltac:(lia)) as Hnf.
  destruct (walk (mem st) 1 (root_of pt) (vpn_path vpn)) as [|i c j|a] eqn:W.
  - now elim Hnf.
  - destruct (walk_stop _ _ _ _ _ _ _ W) as (q1 & q2 & E & W1 & V & P & Hi).
    rewrite E in Hq, Lq. apply path_ok_app in Hq as [Hq1 Hq2].
    inversion Hq2 as [|? ? Hj _]; subst.
    rewrite length_app in Lq. cbn [length] in Lq.
    destruct (inv_nodes _ _ INV q1 c Hq1 ltac:(lia) W1) as [_ Hn].
    pose proof (pte_ok_invalid _ (Hn j Hj) P) as Z0.
    exists (c + 8 * j). unfold store. rewrite V.
    split; [reflexivity|]. split.
    + apply (table_inv_same pt st); [|exact INV].
      split; [reflexivity|]. intro a. cbn [set_mem mem]. unfold upd.
      destruct (a =? c + 8 * j) eqn:Ea; [|reflexivity].
      apply Z.eqb_eq in Ea. subst a. now rewrite Z0.
    + left. exists (1 + Z.of_nat (length q1)), c, j.
      repeat split; auto; lia.
  - pose proof (vpn_index_ok vpn 5) as H5.
    exists (a + 8 * vpn_index vpn 5). unfold store.
    rewrite (node_slot_valid pt st INV (vpn_path vpn) a) by (auto; lia).
    split; [reflexivity|]. split.
    + apply (leaf_inv pt st INV (vpn_path vpn)); auto. apply pte_ok_zero.
    + right. exists a. auto.
Qed.

End OnTables.

(** ** Creating along a path that is already there *)

Lemma create_loop_present vpn extra n : forall i cur st a,
  i + Z.of_nat n = 5 ->
  walk (mem st) i cur (path_from vpn i n) = WNode a ->
  create_loop (S (n + extra)) vpn i cur (vpn_index vpn i) st
  = Done (5, a, vpn_index vpn 5) st.
Proof.
  induction n as [|n IH]; intros i cur st a Hi W; rewrite create_loop_eq.
  - assert (i = 5) by lia. subst i. cbn [path_from walk] in W.
    injection W as <-. reflexivity.
  - assert (Hlt : (i <? 5) = true) by (apply Z.ltb_lt; lia). rewrite Hlt.
    change (S n + extra)%nat with (S (n + extra)).
    cbn [path_from] in W. rewrite walk_cons in W.
    destruct (valid_addr (cur + 8 * vpn_index vpn i)) eqn:V; [|discriminate].
    destruct (mem st (cur + 8 * vpn_index vpn i) mod 2 =? 0) eqn:P;
      [discriminate|].
    unfold bind, load, ret. rewrite V. cbv beta iota. rewrite P.
    cbv beta iota. rewrite next_index.
    apply IH; [lia | exact W].
Qed.

(** When the four pointer entries of a page are valid, create takes no
    frame and only writes the leaf entry. *)
Lemma create_present root vpn ppn st a :
  walk (mem st) 1 root (vpn_path vpn) = WNode a ->
  create_virtual_memory_mapping root vpn ppn st
  = store a (vpn_index vpn 5) (add64 (shl64 ppn 12) 1) st.
Proof.
  intro W. unfold create_virtual_memory_mapping.
  rewrite first_index. change loop_fuel with (S (4 + 0)). unfold bind.
  rewrite (create_loop_present vpn 0 4 1 root st a) by (reflexivity || exact W).
  reflexivity.
Qed.

(** ** The loops read a page number only through its low 45 bits *)

Lemma bind_ext {A B} (m : M A) (k1 k2 : A -> M B) st :
  (forall a s, k1 a s = k2 a s) -> bind m k1 st = bind m k2 st.
Proof. intro H. unfold bind. destruct (m st); auto. Qed.

Lemma create_loop_low v1 v2 :
  v1 mod 2 ^ 45 = v2 mod 2 ^ 45 ->
  forall fuel i cur pte st, 1 <= i ->
    create_loop fuel v1 i cur pte st = create_loop fuel v2 i cur pte st.
Proof.
  intros E fuel. induction fuel as [|fuel IH]; intros i cur pte st Hi;
    [reflexivity|].
  rewrite !create_loop_eq. destruct (i <? 5) eqn:Hlt; [|reflexivity].
  apply Z.ltb_lt in Hlt.
  rewrite !next_index, (vpn_index_low v1 v2) by (lia || assumption).
  apply bind_ext. intros e s1. apply bind_ext. intros u s2.
  apply bind_ext. intros e' s3. apply IH. lia.
Qed.

(** ** Fuel *)







Section QueryFuel.
Variable NO_MAPPING : Z.


End QueryFuel.

(** ** Masking the valid bit *)

Lemma land_odd_even x y : Z.land (2 * x + 1) (2 * y) = 2 * Z.land x y.
Proof.
  apply Z.bits_inj'. intros k Hk. rewrite Z.land_spec.
  destruct (Z.eq_dec k 0) as [-> | Hne].
  - now rewrite Z.testbit_odd_0, !Z.testbit_even_0.
  - replace k with (Z.succ (k - 1)) by lia.
    rewrite Z.testbit_odd_succ, !Z.testbit_even_succ, Z.land_spec by lia.
    reflexivity.
Qed.

Lemma clear_valid_entry n :
  0 <= n < 2 ^ 52 -> Z.land (4096 * n + 1) clear_valid_mask = 4096 * n.
Proof.
  rewrite pow52. intro Hn.
  change clear_valid_mask with (2 * Z.ones 63).
  replace (4096 * n + 1) with (2 * (2048 * n) + 1) by lia.
  rewrite land_odd_even, Z.land_ones by lia.
  rewrite Z.mod_small; [lia|].
  change (2 ^ 63) with 9223372036854775808. lia.
Qed.

(** ** The dispatch of [page_table_update] *)

Lemma update_unmap NM pt vpn st :
  page_table_update NM pt vpn NM st
  = destroy_virtual_memory_mapping (root_of pt) vpn st.
Proof. unfold page_table_update. now rewrite Z.eqb_refl. Qed.

Lemma update_map NM pt vpn ppn st :
  ppn <> NM ->
  page_table_update NM pt vpn ppn st
  = create_virtual_memory_mapping (root_of pt) vpn ppn st.
Proof.
  intro H. unfold page_table_update. apply Z.eqb_neq in H. now rewrite H.
Qed.

Lemma update_defined NM pt vpn ppn st :
  table_inv pt st -> next_frame st + 4 <= 2 ^ 52 ->
  exists st',
    page_table_update NM pt vpn ppn st = Done tt st' /\
    table_inv pt st' /\
    next_frame st' <= next_frame st + 4.
Proof.
  intros I R. destruct (Z.eq_dec ppn NM) as [-> | N].
  - rewrite update_unmap.
    destruct (destroy_defined pt st I vpn) as (s & E & I' & _).
    exists (set_mem st s 0). cbn [set_mem next_frame].
    split; [exact E|]. split; [exact I' | lia].
  - rewrite update_map by exact N.
    destruct (create_defined NM pt st I vpn ppn R) as (st' & E & I' & _ & _ & B & _).
    exists st'. split; [exact E|]. split; [exact I' | lia].
Qed.

Lemma exec_calls_defined NM pt cs : forall st,
  table_inv pt st ->
  next_frame st + 4 * Z.of_nat (length cs) <= 2 ^ 52 ->
  exists st', exec_calls NM pt cs st = Done tt st' /\ table_inv pt st'.
Proof.
  induction cs as [|c cs IH]; intros st I R.
  - exists st. split; [reflexivity | exact I].
  - cbn [length] in R. cbn [exec_calls]. unfold bind.
    assert (Hc : exists st1, exec_call NM pt c st = Done tt st1 /\
                   table_inv pt st1 /\ next_frame st1 <= next_frame st + 4).
    { destruct c as [vpn ppn | vpn]; cbn [exec_call].
      - apply update_defined; [exact I | lia].
      - unfold bind. rewrite (query_defined NM pt st I).
        exists st. split; [reflexivity|]. split; [exact I | lia]. }
    destruct Hc as (st1 & E1 & I1 & B1). rewrite E1.
    apply IH; [exact I1 | lia].
Qed.

Lemma set_twice st s v : same_state (set_mem (set_mem st s v) s v) (set_mem st s v).
Proof.
  split; [reflexivity|]. intro a. cbn [set_mem mem]. unfold upd.
  destruct (a =? s); reflexivity.
Qed.

Lemma set_zero_same st s : mem st s = 0 -> same_state (set_mem st s 0) st.
Proof.
  intro Z0. split; [reflexivity|]. intro a. cbn [set_mem mem]. unfold upd.
  destruct (a =? s) eqn:E; [|reflexivity].
  apply Z.eqb_eq in E. now subst a.
Qed.

(** * The properties of the three operations *)

(** The scenario of the design document, on a fresh root table: page
    0x1000 is unmapped, is mapped to 7, and is unmapped again. *)
Example scenario :
  value_of (page_table_query all_ones 1 4096 boot) = Some all_ones /\
  value_of ((page_table_update all_ones 1 4096 7 ;;;
             page_table_query all_ones 1 4096) boot) = Some 7 /\
  value_of ((page_table_update all_ones 1 4096 7 ;;;
             page_table_update all_ones 1 4096 all_ones ;;;
             page_table_query all_ones 1 4096) boot) = Some all_ones.
Proof. vm_compute. repeat split. Qed.

(** C1 (as stated, refuted): with [NO_MAPPING] the all-ones word, mapping
    page 0 of a fresh table to the physical page number 2^52, which is not
    [NO_MAPPING], and querying page 0 returns 0 and not 2^52: the shift
    [ppn << 12] drops bits 52-63 of the page number. *)
Lemma roundtrip_counterexample :
  table_inv 1 boot /\ 2 ^ 52 <> all_ones /\
  value_of ((page_table_update all_ones 1 0 (2 ^ 52) ;;;
             page_table_query all_ones 1 0) boot) = Some 0 /\
  0 <> 2 ^ 52.
Proof.
  split; [exact boot_inv|]. vm_compute. repeat split; discriminate.
Qed.

(** C1 (amended): on a well-formed table with room for four more frames,
    for every virtual page number and every physical page number other
    than [NO_MAPPING], [page_table_update] followed by [page_table_query]
    of the same page returns the low 52 bits of that physical page
    number, hence the physical page number itself when it is below
    2^52. *)
Theorem update_then_query NM pt vpn ppn st :
  table_inv pt st -> next_frame st + 4 <= 2 ^ 52 -> ppn <> NM ->
  exists st',
    page_table_update NM pt vpn ppn st = Done tt st' /\
    page_table_query NM pt vpn st' = Done (ppn mod 2 ^ 52) st' /\
    (0 <= ppn < 2 ^ 52 -> page_table_query NM pt vpn st' = Done ppn st').
Proof.
  intros I R N. rewrite update_map by exact N.
  destruct (create_defined NM pt st I vpn ppn R) as (st' & E & I' & L & _).
  exists st'. split; [exact E|].
  rewrite (query_defined NM pt st' I'), L. split; [reflexivity|].
  intro B. now rewrite Z.mod_small by exact B.
Qed.

Lemma update_then_query_witness :
  table_inv 1 boot /\ next_frame boot + 4 <= 2 ^ 52 /\
  7 <> all_ones /\ 0 <= 7 < 2 ^ 52 /\
  exists st',
    page_table_update all_ones 1 4096 7 boot = Done tt st' /\
    page_table_query all_ones 1 4096 st' = Done 7 st'.
Proof.
  assert (R : next_frame boot + 4 <= 2 ^ 52) by (vm_compute; discriminate).
  assert (N : 7 <> all_ones) by (vm_compute; discriminate).
  assert (B : 0 <= 7 < 2 ^ 52) by (split; vm_compute; congruence).
  split; [exact boot_inv|]. split; [exact R|]. split; [exact N|].
  split; [exact B|].
  destruct (update_then_query all_ones 1 4096 7 boot boot_inv R N)
    as (st' & E & _ & Q).
  exists st'. split; [exact E | exact (Q B)].
Defined.

(** C2: in every state, for every virtual page number, mapped or not,
    when [page_table_update] with [NO_MAPPING] returns, the
    [page_table_query] of the same page that follows returns
    [NO_MAPPING]; and on a well-formed table the update does return. *)
Theorem unmap_then_query NM pt vpn st :
  (forall st',
     page_table_update NM pt vpn NM st = Done tt st' ->
     page_table_query NM pt vpn st' = Done NM st') /\
  (table_inv pt st ->
   exists st', page_table_update NM pt vpn NM st = Done tt st').
Proof.
  split.
  - intros st'. rewrite update_unmap. intro H.
    apply destroy_done in H as (s & -> & V & [W | (i & c & j & W & E)]);
      rewrite query_walk, W; [|reflexivity].
    replace (s - 8 * vpn_index vpn 5 + 8 * vpn_index vpn 5) with s by lia.
    rewrite V. unfold lookup. rewrite W.
    replace (s - 8 * vpn_index vpn 5 + 8 * vpn_index vpn 5) with s by lia.
    cbn [set_mem mem]. rewrite upd_same. reflexivity.
  - intro I. rewrite update_unmap.
    destruct (destroy_defined pt st I vpn) as (s & E & _). eauto.
Qed.

Lemma unmap_then_query_witness :
  table_inv 1 boot /\
  (forall st',
     page_table_update all_ones 1 4096 all_ones boot = Done tt st' ->
     page_table_query all_ones 1 4096 st' = Done all_ones st') /\
  exists st', page_table_update all_ones 1 4096 all_ones boot = Done tt st'.
Proof.
  split; [exact boot_inv|]. split.
  - exact (proj1 (unmap_then_query all_ones 1 4096 boot)).
  - exact (proj2 (unmap_then_query all_ones 1 4096 boot) boot_inv).
Defined.

(** C3: in every state, when [page_table_update] with [NO_MAPPING]
    returns, calling it again returns and leaves the same state; and on a
    well-formed table the call returns, and when its walk meets an invalid
    pointer entry at one of the first four levels it leaves the state as
    it was. *)
Theorem unmap_idempotent NM pt vpn st :
  (forall st1,
     page_table_update NM pt vpn NM st = Done tt st1 ->
     exists st2,
       page_table_update NM pt vpn NM st1 = Done tt st2 /\
       same_state st2 st1) /\
  (table_inv pt st ->
   exists st1,
     page_table_update NM pt vpn NM st = Done tt st1 /\
     ((exists i c j,
         walk (mem st) 1 (root_of pt) (vpn_path vpn) = WStop i c j) ->
      same_state st1 st)).
Proof.
  split.
  - intros st1. rewrite !update_unmap. intro H.
    apply destroy_done in H as (s & -> & V & [W | (i & c & j & W & E)]);
      rewrite destroy_walk, W; unfold store.
    + replace (s - 8 * vpn_index vpn 5 + 8 * vpn_index vpn 5) with s by lia.
      rewrite V. eexists. split; [reflexivity | apply set_twice].
    + rewrite E, V. eexists. split; [reflexivity | apply set_twice].
  - intro I. rewrite update_unmap.
    destruct (destroy_defined pt st I vpn) as (s & E & _ & C).
    exists (set_mem st s 0). split; [exact E|].
    intros (i & c & j & W).
    destruct C as [(i' & c' & j' & W' & _ & -> & Z0) | (a & W' & _)].
    + apply set_zero_same, Z0.
    + congruence.
Qed.

Lemma unmap_idempotent_witness :
  table_inv 1 boot /\
  (forall st1,
     page_table_update all_ones 1 4096 all_ones boot = Done tt st1 ->
     exists st2,
       page_table_update all_ones 1 4096 all_ones st1 = Done tt st2 /\
       same_state st2 st1) /\
  exists st1,
    page_table_update all_ones 1 4096 all_ones boot = Done tt st1 /\
    ((exists i c j,
        walk (mem boot) 1 (root_of 1) (vpn_path 4096) = WStop i c j) ->
     same_state st1 boot).
Proof.
  split; [exact boot_inv|]. split.
  - exact (proj1 (unmap_idempotent all_ones 1 4096 boot)).
  - exact (proj2 (unmap_idempotent all_ones 1 4096 boot) boot_inv).
Defined.

(** C4 (as stated, refuted): on a fresh table, page 2^45 is unmapped;
    after page 0 is mapped to 7, the query of page 2^45, a different
    virtual page number, returns 7. *)
Lemma other_page_counterexample :
  table_inv 1 boot /\ 2 ^ 45 <> 0 /\ 7 <> all_ones /\
  value_of (page_table_query all_ones 1 (2 ^ 45) boot) = Some all_ones /\
  value_of ((page_table_update all_ones 1 0 7 ;;;
             page_table_query all_ones 1 (2 ^ 45)) boot) = Some 7.
Proof.
  split; [exact boot_inv|]. vm_compute. repeat split; discriminate.
Qed.

(** C4 (amended): on a well-formed table with room for four more frames,
    mapping page [v1] to a physical page other than [NO_MAPPING] leaves the
    result of [page_table_query] unchanged for every page [v2] that
    differs from [v1] in bits 0-44, among them every page that differs
    from [v1] only in the lowest 9-bit index group. *)
Theorem update_keeps_other_pages NM pt v1 p1 v2 st :
  table_inv pt st -> next_frame st + 4 <= 2 ^ 52 ->
  p1 <> NM -> v2 mod 2 ^ 45 <> v1 mod 2 ^ 45 ->
  exists st' r,
    page_table_update NM pt v1 p1 st = Done tt st' /\
    page_table_query NM pt v2 st = Done r st /\
    page_table_query NM pt v2 st' = Done r st'.
Proof.
  intros I R N D. rewrite update_map by exact N.
  destruct (create_defined NM pt st I v1 p1 R) as (st' & E & I' & _ & F & _).
  exists st', (lookup NM (mem st) pt v2).
  split; [exact E|]. split; [apply query_defined, I|].
  rewrite (query_defined NM pt st' I'). f_equal. apply F.
  destruct (list_eq_dec Z.eq_dec (vpn_path v2) (vpn_path v1)) as [Ep | Np];
    [right | now left].
  intro E5. apply D, same_slot_low. auto.
Qed.

Lemma update_keeps_other_pages_witness :
  table_inv 1 boot /\ next_frame boot + 4 <= 2 ^ 52 /\
  7 <> all_ones /\ 1 mod 2 ^ 45 <> 0 mod 2 ^ 45 /\
  exists st' r,
    page_table_update all_ones 1 0 7 boot = Done tt st' /\
    page_table_query all_ones 1 1 boot = Done r boot /\
    page_table_query all_ones 1 1 st' = Done r st'.
Proof.
  assert (R : next_frame boot + 4 <= 2 ^ 52) by (vm_compute; discriminate).
  assert (N : 7 <> all_ones) by (vm_compute; discriminate).
  assert (D : 1 mod 2 ^ 45 <> 0 mod 2 ^ 45) by (vm_compute; discriminate).
  split; [exact boot_inv|]. split; [exact R|]. split; [exact N|].
  split; [exact D|].
  exact (update_keeps_other_pages all_ones 1 0 7 1 boot boot_inv R N D).
Defined.

(** C5: two virtual page numbers that agree in bits 0-44 select the same
    five indices, and update and query do the same with either of them,
    in every state. *)
Theorem high_bits_ignored NM pt v1 v2 ppn st :
  v1 mod 2 ^ 45 = v2 mod 2 ^ 45 ->
  (vpn_path v1 = vpn_path v2 /\ vpn_index v1 5 = vpn_index v2 5) /\
  page_table_update NM pt v1 ppn st = page_table_update NM pt v2 ppn st /\
  page_table_query NM pt v1 st = page_table_query NM pt v2 st.
Proof.
  intro E. pose proof (proj2 (same_slot_low v1 v2) E) as [Ep E5].
  split; [auto|]. split.
  - unfold page_table_update. destruct (ppn =? NM).
    + now rewrite !destroy_walk, Ep, E5.
    + unfold create_virtual_memory_mapping.
      rewrite !first_index, (vpn_index_low v1 v2 1) by (lia || exact E).
      unfold bind. rewrite (create_loop_low v1 v2 E) by lia. reflexivity.
  - rewrite !query_walk. unfold lookup. now rewrite Ep, E5.
Qed.

Lemma high_bits_ignored_witness :
  4096 mod 2 ^ 45 = (4096 + 2 ^ 45) mod 2 ^ 45 /\
  (vpn_path 4096 = vpn_path (4096 + 2 ^ 45) /\
   vpn_index 4096 5 = vpn_index (4096 + 2 ^ 45) 5) /\
  page_table_update all_ones 1 4096 7 boot
  = page_table_update all_ones 1 (4096 + 2 ^ 45) 7 boot /\
  page_table_query all_ones 1 4096 boot
  = page_table_query all_ones 1 (4096 + 2 ^ 45) boot.
Proof.
  assert (E : 4096 mod 2 ^ 45 = (4096 + 2 ^ 45) mod 2 ^ 45) by reflexivity.
  split; [exact E|].
  exact (high_bits_ignored all_ones 1 4096 (4096 + 2 ^ 45) 7 boot E).
Defined.

(** C6 (as stated, refuted): on a fresh table page 0 is mapped to 7 and
    then to 2^52 + 7, two different physical page numbers, neither of them
    [NO_MAPPING]; the query returns 7, the first of the two, because the
    entry keeps only bits 0-51 of the page number. *)
Lemma remap_counterexample :
  table_inv 1 boot /\ 7 <> all_ones /\ 2 ^ 52 + 7 <> all_ones /\
  7 <> 2 ^ 52 + 7 /\
  value_of ((page_table_update all_ones 1 0 7 ;;;
             page_table_update all_ones 1 0 (2 ^ 52 + 7) ;;;
             page_table_query all_ones 1 0) boot) = Some 7.
Proof.
  split; [exact boot_inv|]. vm_compute. repeat split; discriminate.
Qed.

(** C6 (amended): on a well-formed table with room for four more frames,
    mapping a page to a physical page and then to a second one (neither
    being [NO_MAPPING]) returns both times, the second call takes no frame
    from the allocator and overwrites the leaf entry, and the query of the
    page returns the low 52 bits of the second physical page number, hence
    that number itself when it is below 2^52. *)
Theorem remap_overwrites NM pt vpn p1 p2 st :
  table_inv pt st -> next_frame st + 4 <= 2 ^ 52 ->
  p1 <> NM -> p2 <> NM ->
  exists st1 st2,
    page_table_update NM pt vpn p1 st = Done tt st1 /\
    page_table_update NM pt vpn p2 st1 = Done tt st2 /\
    next_frame st2 = next_frame st1 /\
    page_table_query NM pt vpn st2 = Done (p2 mod 2 ^ 52) st2 /\
    (0 <= p2 < 2 ^ 52 -> page_table_query NM pt vpn st2 = Done p2 st2).
Proof.
  intros I R N1 N2. rewrite update_map by exact N1.
  destruct (create_defined NM pt st I vpn p1 R)
    as (st1 & E1 & I1 & _ & _ & _ & a & W).
  assert (Hq : path_ok (vpn_path vpn)) by apply path_from_ok.
  assert (Lq : length (vpn_path vpn) = 4%nat) by apply path_from_length.
  pose proof (vpn_index_ok vpn 5) as H5.
  exists st1, (set_mem st1 (a + 8 * vpn_index vpn 5) (add64 (shl64 p2 12) 1)).
  split; [exact E1|]. split; [|split; [reflexivity|]].
  - rewrite update_map by exact N2.
    rewrite (create_present _ vpn p2 st1 a W). unfold store.
    rewrite (node_slot_valid pt st1 I1 (vpn_path vpn) a) by (auto; lia).
    reflexivity.
  - assert (Q : page_table_query NM pt vpn
                  (set_mem st1 (a + 8 * vpn_index vpn 5)
                     (add64 (shl64 p2 12) 1))
                = Done (p2 mod 2 ^ 52)
                    (set_mem st1 (a + 8 * vpn_index vpn 5)
                       (add64 (shl64 p2 12) 1))).
    { rewrite query_defined.
      - rewrite (leaf_lookup_hit NM pt st1 I1 (vpn_path vpn)); auto.
        rewrite entry_word, entry_odd, entry_page. reflexivity.
      - apply (leaf_inv pt st1 I1 (vpn_path vpn)); auto. apply pte_ok_entry. }
    split; [exact Q|]. intro B. rewrite Q, Z.mod_small by exact B.
    reflexivity.
Qed.

Lemma remap_overwrites_witness :
  table_inv 1 boot /\ next_frame boot + 4 <= 2 ^ 52 /\
  7 <> all_ones /\ 9 <> all_ones /\ 0 <= 9 < 2 ^ 52 /\
  exists st1 st2,
    page_table_update all_ones 1 4096 7 boot = Done tt st1 /\
    page_table_update all_ones 1 4096 9 st1 = Done tt st2 /\
    next_frame st2 = next_frame st1 /\
    page_table_query all_ones 1 4096 st2 = Done 9 st2.
Proof.
  assert (R : next_frame boot + 4 <= 2 ^ 52) by (vm_compute; discriminate).
  assert (N1 : 7 <> all_ones) by (vm_compute; discriminate).
  assert (N2 : 9 <> all_ones) by (vm_compute; discriminate).
  assert (B : 0 <= 9 < 2 ^ 52) by (split; vm_compute; congruence).
  split; [exact boot_inv|]. split; [exact R|]. split; [exact N1|].
  split; [exact N2|]. split; [exact B|].
  destruct (remap_overwrites all_ones 1 4096 7 9 boot boot_inv R N1 N2)
    as (st1 & st2 & E1 & E2 & En & _ & Q).
  exists st1, st2. split; [exact E1|]. split; [exact E2|].
  split; [exact En | exact (Q B)].
Defined.

(** C7: [page_table_query] writes nothing: whenever it returns, on an
    invalid pointer entry, an invalid leaf entry or a valid leaf entry,
    the state is the one it was called in; and on a well-formed table it
    does return. *)
Theorem query_read_only NM pt vpn st :
  (forall r st', page_table_query NM pt vpn st = Done r st' -> st' = st) /\
  (table_inv pt st -> exists r, page_table_query NM pt vpn st = Done r st).
Proof.
  split.
  - intros r st'. rewrite query_walk.
    destruct (walk (mem st) 1 (root_of pt) (vpn_path vpn)); try discriminate.
    + intro H. now injection H.
    + destruct (valid_addr _); [|discriminate]. intro H. now injection H.
  - intro I. eexists. apply query_defined, I.
Qed.

Lemma query_read_only_witness :
  table_inv 1 boot /\
  (forall r st', page_table_query all_ones 1 4096 boot = Done r st' -> st' = boot) /\
  exists r, page_table_query all_ones 1 4096 boot = Done r boot.
Proof.
  split; [exact boot_inv|]. split.
  - exact (proj1 (query_read_only all_ones 1 4096 boot)).
  - exact (proj2 (query_read_only all_ones 1 4096 boot) boot_inv).
Defined.




Lemma boot_mapped_inv : table_inv 1 boot_mapped.
Proof.
  destruct (update_defined all_ones 1 4096 7 boot boot_inv)
    as (st' & E & I' & _); [vm_compute; discriminate|].
  unfold boot_mapped. rewrite E. exact I'.
Qed.

(** C9: on a well-formed table, [page_table_update] with [NO_MAPPING]
    returns, takes nothing from and gives nothing back to the allocator,
    leaves every node of the table where it was, and changes no pointer
    entry of levels 1-4.  When the four pointer entries of the page are
    valid, the leaf entry of the page is zero afterwards; and that leaf
    entry is the only word of memory whose value can differ from
    before. *)
Theorem destroy_only_clears_leaf NM pt vpn st :
  table_inv pt st ->
  exists st',
    page_table_update NM pt vpn NM st = Done tt st' /\
    next_frame st' = next_frame st /\
    (forall q, path_ok q -> (length q <= 4)%nat ->
       walk (mem st') 1 (root_of pt) q = walk (mem st) 1 (root_of pt) q) /\
    (forall q c j, path_ok q -> (length q <= 3)%nat ->
       walk (mem st) 1 (root_of pt) q = WNode c -> index_ok j ->
       mem st' (c + 8 * j) = mem st (c + 8 * j)) /\
    (forall n,
       walk (mem st) 1 (root_of pt) (vpn_path vpn) = WNode n ->
       mem st' (n + 8 * vpn_index vpn 5) = 0) /\
    (forall a, mem st' a <> mem st a ->
       exists n,
         walk (mem st) 1 (root_of pt) (vpn_path vpn) = WNode n /\
         a = n + 8 * vpn_index vpn 5 /\ mem st' a = 0).
Proof.
  intro I. rewrite update_unmap.
  assert (Hq : path_ok (vpn_path vpn)) by apply path_from_ok.
  assert (Lq : length (vpn_path vpn) = 4%nat) by apply path_from_length.
  pose proof (vpn_index_ok vpn 5) as H5.
  destruct (destroy_defined pt st I vpn) as (s & E & I' & C).
  exists (set_mem st s 0). split; [exact E|]. split; [reflexivity|].
  destruct C as [(i & c & j & W & Hi & -> & Z0) | (a & W & ->)].
  - destruct (set_zero_same st (c + 8 * j) Z0) as [_ Same].
    split; [|split; [|split]].
    + intros q _ _. apply walk_ext, Same.
    + intros q c' j' _ _ _ _. apply Same.
    + intros n Wn. congruence.
    + intros a Ha. elim Ha. apply Same.
  - split; [|split; [|split]].
    + intros q Hp Lp. apply (leaf_walk pt st I (vpn_path vpn)); auto.
    + intros q c j Hp Lp Wq Hj. cbn [set_mem mem]. apply upd_other.
      intro Es.
      destruct (slot_owner pt st I q (vpn_path vpn) c a j (vpn_index vpn 5))
        as (Eq & _); auto; try lia.
      rewrite Eq in Lp. lia.
    + intros n Wn. assert (n = a) by congruence. subst n.
      cbn [set_mem mem]. apply upd_same.
    + intros b Hb. exists a. split; [exact W|].
      cbn [set_mem mem] in *. unfold upd in *.
      destruct (b =? a + 8 * vpn_index vpn 5) eqn:Eb.
      * apply Z.eqb_eq in Eb. auto.
      * now elim Hb.
Qed.

(** The witness unmaps page 0x1000 of a table in which that page is
    mapped to 7: its leaf entry, at index 0 of the node in frame 5, holds
    the word 7 * 4096 + 1 before the call. *)
Lemma destroy_only_clears_leaf_witness :
  table_inv 1 boot_mapped /\
  walk (mem boot_mapped) 1 (root_of 1) (vpn_path 4096) = WNode (4096 * 5) /\
  mem boot_mapped (4096 * 5 + 8 * vpn_index 4096 5) = 7 * 4096 + 1 /\
  exists st',
    page_table_update all_ones 1 4096 all_ones boot_mapped = Done tt st' /\
    next_frame st' = next_frame boot_mapped /\
    (forall q, path_ok q -> (length q <= 4)%nat ->
       walk (mem st') 1 (root_of 1) q
       = walk (mem boot_mapped) 1 (root_of 1) q) /\
    (forall q c j, path_ok q -> (length q <= 3)%nat ->
       walk (mem boot_mapped) 1 (root_of 1) q = WNode c -> index_ok j ->
       mem st' (c + 8 * j) = mem boot_mapped (c + 8 * j)) /\
    (forall n,
       walk (mem boot_mapped) 1 (root_of 1) (vpn_path 4096) = WNode n ->
       mem st' (n + 8 * vpn_index 4096 5) = 0) /\
    (forall a, mem st' a <> mem boot_mapped a ->
       exists n,
         walk (mem boot_mapped) 1 (root_of 1) (vpn_path 4096) = WNode n /\
         a = n + 8 * vpn_index 4096 5 /\ mem st' a = 0).
Proof.
  split; [exact boot_mapped_inv|].
  split; [vm_compute; reflexivity|].
  split; [vm_compute; reflexivity|].
  exact (destroy_only_clears_leaf all_ones 1 4096 boot_mapped boot_mapped_inv).
Defined.

(** C10: starting from an all-zero root table, after any sequence of
    updates and queries (with room for four frames per call) every entry
    of every node of the table is zero or a page number shifted into bits
    12-63 with the valid bit set; so an invalid entry is the zero word,
    and for a valid entry subtracting 1 gives the same word as masking
    the valid bit off. *)
Theorem entries_well_formed NM pt cs st :
  fresh_table pt st ->
  next_frame st + 4 * Z.of_nat (length cs) <= 2 ^ 52 ->
  exists st',
    exec_calls NM pt cs st = Done tt st' /\
    table_inv pt st' /\
    forall q a j,
      path_ok q -> (length q <= 4)%nat ->
      walk (mem st') 1 (root_of pt) q = WNode a -> index_ok j ->
      let e := mem st' (a + 8 * j) in
      pte_ok e /\
      (e mod 2 = 0 -> e = 0) /\
      (e mod 2 = 1 -> sub64 e 1 = Z.land e clear_valid_mask).
Proof.
  intros F R.
  destruct (exec_calls_defined NM pt cs st (fresh_table_inv pt st F) R)
    as (st' & E & I').
  exists st'. split; [exact E|]. split; [exact I'|].
  intros q a j Hq Lq W Hj e.
  destruct (inv_nodes _ _ I' q a Hq Lq W) as [_ Hn].
  specialize (Hn j Hj). fold e in Hn.
  split; [exact Hn|]. split.
  - apply pte_ok_invalid, Hn.
  - intro Hodd.
    destruct (pte_ok_valid e Hn) as (n & Bn & En); [lia|].
    rewrite En, clear_valid_entry by exact Bn.
    apply (entry_target n Bn).
Qed.

Lemma entries_well_formed_witness :
  fresh_table 1 boot /\
  next_frame boot
  + 4 * Z.of_nat (length [Update 4096 7; Query 4096; Update 4096 all_ones])
  <= 2 ^ 52 /\
  exists st',
    exec_calls all_ones 1 [Update 4096 7; Query 4096; Update 4096 all_ones] boot
    = Done tt st' /\
    table_inv 1 st' /\
    forall q a j,
      path_ok q -> (length q <= 4)%nat ->
      walk (mem st') 1 (root_of 1) q = WNode a -> index_ok j ->
      let e := mem st' (a + 8 * j) in
      pte_ok e /\
      (e mod 2 = 0 -> e = 0) /\
      (e mod 2 = 1 -> sub64 e 1 = Z.land e clear_valid_mask).
Proof.
  assert (R : next_frame boot
              + 4 * Z.of_nat (length [Update 4096 7; Query 4096;
                                      Update 4096 all_ones])
              <= 2 ^ 52) by (vm_compute; discriminate).
  split; [exact boot_fresh|]. split; [exact R|].
  exact (entries_well_formed all_ones 1
           [Update 4096 7; Query 4096; Update 4096 all_ones] boot boot_fresh R).
Defined.

(** * Further properties of the operations *)

(** ** Auxiliary facts *)

Lemma root_of_low pt : root_of pt = 4096 * (pt mod 2 ^ 52).
Proof.
  unfold root_of, phys_to_virt, shl64, wrap64.
  rewrite shl12, pow64, pow52. apply Z.mul_mod_distr_l; lia.
Qed.

Lemma lookup_low NM m pt v w :
  v mod 2 ^ 45 = w mod 2 ^ 45 -> lookup NM m pt v = lookup NM m pt w.
Proof.
  intro E. apply same_slot_low in E as [Ep E5].
  unfold lookup. now rewrite Ep, E5.
Qed.

Lemma lookup_ext NM m m' pt v :
  (forall a, m a = m' a) -> lookup NM m pt v = lookup NM m' pt v.
Proof.
  intro H. unfold lookup. rewrite (walk_ext m m' H).
  destruct (walk m' 1 (root_of pt) (vpn_path v)); try reflexivity.
  now rewrite H.
Qed.

Lemma other_slot v w :
  v mod 2 ^ 45 <> w mod 2 ^ 45 ->
  vpn_path v <> vpn_path w \/ vpn_index v 5 <> vpn_index w 5.
Proof.
  intro D.
  destruct (list_eq_dec Z.eq_dec (vpn_path v) (vpn_path w)) as [Ep | Np];
    [right | now left].
  intro E5. apply D, same_slot_low. auto.
Qed.

(** An unmap changes the view of the table at one page. *)
Lemma unmap_lookup NM pt vpn st :
  table_inv pt st ->
  exists st',
    page_table_update NM pt vpn NM st = Done tt st' /\
    table_inv pt st' /\
    next_frame st' = next_frame st /\
    forall v,
      lookup NM (mem st') pt v
      = if same_page v vpn then NM else lookup NM (mem st) pt v.
Proof.
  intros I.
  assert (Hq : path_ok (vpn_path vpn)) by apply path_from_ok.
  assert (Lq : length (vpn_path vpn) = 4%nat) by apply path_from_length.
  pose proof (vpn_index_ok vpn 5) as H5.
  rewrite update_unmap.
  destruct (destroy_defined pt st I vpn) as (s & E & I' & C).
  exists (set_mem st s 0). split; [exact E|]. split; [exact I'|].
  split; [reflexivity|].
  intro v. unfold same_page.
  destruct (v mod 2 ^ 45 =? vpn mod 2 ^ 45) eqn:SP.
  - apply Z.eqb_eq in SP. rewrite (lookup_low NM _ pt v vpn SP).
    destruct C as [(i & c & j & W & Hi & -> & Z0) | (a & W & ->)].
    + rewrite (lookup_ext NM _ (mem st)) by apply (set_zero_same st _ Z0).
      unfold lookup. now rewrite W.
    + now rewrite (leaf_lookup_hit NM pt st I (vpn_path vpn) a).
  - apply Z.eqb_neq in SP.
    destruct C as [(i & c & j & W & Hi & -> & Z0) | (a & W & ->)].
    + apply lookup_ext, (set_zero_same st _ Z0).
    + apply (leaf_lookup_miss NM pt st I (vpn_path vpn) a); auto.
      now apply other_slot.
Qed.

(** An update changes the view of the table at one page. *)
Lemma update_lookup NM pt vpn ppn st :
  table_inv pt st -> next_frame st + 4 <= 2 ^ 52 ->
  exists st',
    page_table_update NM pt vpn ppn st = Done tt st' /\
    table_inv pt st' /\
    next_frame st' <= next_frame st + 4 /\
    forall v,
      lookup NM (mem st') pt v
      = if same_page v vpn then answer_of NM ppn
        else lookup NM (mem st) pt v.
Proof.
  intros I R.
  unfold answer_of. destruct (Z.eq_dec ppn NM) as [-> | N].
  - rewrite Z.eqb_refl.
    destruct (unmap_lookup NM pt vpn st I) as (st' & E & I' & B & L).
    exists st'. split; [exact E|]. split; [exact I'|]. split; [lia | exact L].
  - rewrite update_map by exact N.
    apply Z.eqb_neq in N. rewrite N.
    destruct (create_defined NM pt st I vpn ppn R)
      as (st' & E & I' & L & F & B & _).
    exists st'. split; [exact E|]. split; [exact I'|]. split; [lia|].
    intro v. unfold same_page.
    destruct (v mod 2 ^ 45 =? vpn mod 2 ^ 45) eqn:SP.
    + apply Z.eqb_eq in SP. now rewrite (lookup_low NM _ pt v vpn SP).
    + apply Z.eqb_neq in SP. apply F. now apply other_slot.
Qed.

(** The loop of create keeps every node where it is and takes one frame
    for each level from the first invalid pointer entry on. *)
Lemma create_loop_more pt vpn extra n : forall i cur st r st',
  i + Z.of_nat n = 5 -> 1 <= i ->
  table_inv pt st ->
  walk (mem st) 1 (root_of pt) (path_from vpn 1 (Z.to_nat (i - 1))) = WNode cur ->
  next_frame st + Z.of_nat n <= 2 ^ 52 ->
  create_loop (S (n + extra)) vpn i cur (vpn_index vpn i) st = Done r st' ->
  (forall q b, path_ok q -> (length q <= 4)%nat ->
     walk (mem st) 1 (root_of pt) q = WNode b ->
     walk (mem st') 1 (root_of pt) q = WNode b) /\
  next_frame st'
  = next_frame st
    + match walk (mem st) i cur (path_from vpn i n) with
      | WStop i' _ _ => 5 - i'
      | _ => 0
      end.
Proof.
  induction n as [|n IH]; intros i cur st r st' Hi H1 INV Wp Hroom H;
    rewrite create_loop_eq in H.
  - assert (i = 5) by lia. subst i. cbn in H.
    assert (st' = st) by (unfold ret in H; congruence). subst st'.
    split; [auto | cbn [path_from walk]; lia].
  - assert (Hlt : (i <? 5) = true) by (apply Z.ltb_lt; lia).
    rewrite Hlt in H.
    change (S n + extra)%nat with (S (n + extra)) in H.
    set (p := path_from vpn 1 (Z.to_nat (i - 1))) in *.
    assert (Hp : path_ok p) by apply path_from_ok.
    assert (Lp : length p = Z.to_nat (i - 1)) by apply path_from_length.
    assert (Lp3 : (length p <= 3)%nat) by lia.
    assert (Lp4 : (length p <= 4)%nat) by lia.
    pose proof (vpn_index_ok vpn i) as Hj.
    assert (V : valid_addr (cur + 8 * vpn_index vpn i) = true)
      by exact (node_slot_valid pt st INV p cur _ Hp Lp4 Wp Hj).
    assert (Enext : path_from vpn 1 (Z.to_nat (i + 1 - 1)) = p ++ [vpn_index vpn i]).
    { replace (Z.to_nat (i + 1 - 1)) with (S (Z.to_nat (i - 1))) by lia.
      rewrite path_from_snoc. unfold p. do 3 f_equal. lia. }
    pose proof (inv_capacity _ _ INV) as Hc.
    cbn [path_from]. rewrite walk_cons, V.
    unfold bind at 1 in H. unfold load at 1 in H. rewrite V in H.
    destruct (mem st (cur + 8 * vpn_index vpn i) mod 2 =? 0) eqn:P.
    + apply Z.eqb_eq in P.
      unfold bind, alloc_page_frame, store, load, set_mem in H;
        cbn [mem next_frame] in H.
      rewrite V in H. cbn [mem next_frame] in H.
      rewrite upd_same, entry_word_small, entry_target, next_index in H by lia.
      assert (Hroom1 : next_frame st + 1 <= 2 ^ 52) by lia.
      pose proof (link_inv pt st INV p cur _ Hp Lp3 Wp Hj P Hroom1) as INV'.
      pose proof (link_reaches pt st INV p cur _ Hp Lp3 Wp Hj P Hroom1) as W'.
      fold (linked st cur (vpn_index vpn i)) in H.
      destruct (IH (i + 1) (4096 * next_frame st)
                  (linked st cur (vpn_index vpn i)) r st')
        as [Keep Count]; auto; try lia.
      * rewrite Enext. exact W'.
      * unfold linked; cbn [next_frame]. lia.
      * split.
        -- intros q b Hq Lq Wq. apply Keep; auto.
           destruct (link_walk pt st INV p cur _ Hp Lp3 Wp Hj P Hroom1 q Hq Lq)
             as [Same | (q2 & _ & (i0 & Stop) & _)]; congruence.
        -- rewrite Count. unfold linked at 1; cbn [next_frame].
           destruct n as [|n].
           ++ cbn [path_from walk]. lia.
           ++ cbn [path_from]. rewrite walk_cons.
              pose proof (vpn_index_ok vpn (i + 1)) as Hk.
              rewrite slot_valid by (auto; lia).
              pose proof (node_slot_below pt st INV p cur _ Hp Lp4 Wp Hj).
              unfold linked; cbn [mem]. unfold index_ok in Hk.
              rewrite upd_other by lia.
              rewrite (inv_fresh _ _ INV) by lia.
              cbn [Z.modulo Z.eqb Z.div_eucl]. lia.
    + unfold bind, ret, load in H. rewrite V, next_index in H.
      apply (IH (i + 1)
               (phys_to_virt (sub64 (mem st (cur + 8 * vpn_index vpn i)) 1))
               st r st'); auto; try lia.
      rewrite Enext, walk_app, Wp, walk_cons, V, P. reflexivity.
Qed.

Lemma create_more pt vpn ppn st :
  table_inv pt st -> next_frame st + 4 <= 2 ^ 52 ->
  exists st',
    create_virtual_memory_mapping (root_of pt) vpn ppn st = Done tt st' /\
    (forall q b, path_ok q -> (length q <= 4)%nat ->
       walk (mem st) 1 (root_of pt) q = WNode b ->
       walk (mem st') 1 (root_of pt) q = WNode b) /\
    next_frame st'
    = next_frame st
      + match walk (mem st) 1 (root_of pt) (vpn_path vpn) with
        | WStop i _ _ => 5 - i
        | _ => 0
        end.
Proof.
  intros I R.
  destruct (create_loop_inv 0 pt vpn 0 4 1 (root_of pt) st)
    as (st1 & a & E & I1 & Wa & _); auto; try lia.
  destruct (create_loop_more pt vpn 0 4 1 (root_of pt) st _ st1
              eq_refl ltac:(lia) I eq_refl R E) as [Keep Count].
  assert (Hq : path_ok (vpn_path vpn)) by apply path_from_ok.
  assert (Lq : length (vpn_path vpn) = 4%nat) by apply path_from_length.
  pose proof (vpn_index_ok vpn 5) as H5.
  unfold create_virtual_memory_mapping.
  rewrite first_index. change loop_fuel with (S (4 + 0)).
  unfold bind. rewrite E. unfold store.
  rewrite (node_slot_valid pt st1 I1 (vpn_path vpn) a) by (auto; lia).
  eexists. split; [reflexivity|]. split.
  - intros q b Hp Lp Wq.
    rewrite (leaf_walk pt st1 I1 (vpn_path vpn)) by (auto; lia).
    now apply Keep.
  - cbn [set_mem next_frame]. exact Count.
Qed.

Lemma fresh_lookup NM pt st v :
  fresh_table pt st -> lookup NM (mem st) pt v = NM.
Proof.
  intros (_ & _ & Hz & _). unfold lookup, vpn_path. cbn [path_from].
  rewrite walk_cons, Hz by apply vpn_index_ok.
  destruct (valid_addr _); reflexivity.
Qed.

(** An update keeps the table well formed and every node where it is. *)
Lemma update_keeps NM pt vpn ppn st :
  table_inv pt st -> next_frame st + 4 <= 2 ^ 52 ->
  exists st',
    page_table_update NM pt vpn ppn st = Done tt st' /\
    table_inv pt st' /\
    next_frame st <= next_frame st' <= next_frame st + 4 /\
    forall q b, path_ok q -> (length q <= 4)%nat ->
      walk (mem st) 1 (root_of pt) q = WNode b ->
      walk (mem st') 1 (root_of pt) q = WNode b.
Proof.
  intros I R.
  assert (Hq : path_ok (vpn_path vpn)) by apply path_from_ok.
  assert (Lq : length (vpn_path vpn) = 4%nat) by apply path_from_length.
  destruct (Z.eq_dec ppn NM) as [-> | N].
  - rewrite update_unmap.
    destruct (destroy_defined pt st I vpn) as (s & E & I' & C).
    exists (set_mem st s 0). split; [exact E|]. split; [exact I'|].
    split; [cbn [set_mem next_frame]; lia|].
    intros q b Hp Lp Wq.
    destruct C as [(i & c & j & W & Hi & -> & Z0) | (a & W & ->)].
    + rewrite <- Wq. apply walk_ext, (set_zero_same st _ Z0).
    + rewrite (leaf_walk pt st I (vpn_path vpn) a);
        auto using vpn_index_ok.
  - rewrite update_map by exact N.
    destruct (create_defined NM pt st I vpn ppn R)
      as (st' & E & I' & _ & _ & B & _).
    destruct (create_more pt vpn ppn st I R) as (st2 & E2 & Keep & _).
    assert (st2 = st') by congruence. subst st2.
    exists st'. auto.
Qed.

Lemma exec_calls_lookup NM pt cs : forall st f,
  table_inv pt st ->
  next_frame st + 4 * Z.of_nat (length cs) <= 2 ^ 52 ->
  (forall v, lookup NM (mem st) pt v = f v) ->
  exists st',
    exec_calls NM pt cs st = Done tt st' /\
    table_inv pt st' /\
    forall v,
      lookup NM (mem st') pt v
      = fold_left (fun g c => model_call NM c g) cs f v.
Proof.
  induction cs as [|c cs IH]; intros st f I R Hf.
  - exists st. split; [reflexivity|]. split; [exact I | exact Hf].
  - cbn [length] in R. cbn [exec_calls fold_left]. unfold bind.
    assert (Hc : exists st1,
               exec_call NM pt c st = Done tt st1 /\ table_inv pt st1 /\
               next_frame st1 <= next_frame st + 4 /\
               forall v, lookup NM (mem st1) pt v = model_call NM c f v).
    { destruct c as [vpn ppn | vpn]; cbn [exec_call model_call].
      - destruct (update_lookup NM pt vpn ppn st I ltac:(lia))
          as (st1 & E & I1 & B & L).
        exists st1. split; [exact E|]. split; [exact I1|]. split; [exact B|].
        intro v. rewrite L. now rewrite Hf.
      - unfold bind. rewrite (query_defined NM pt st I).
        exists st. split; [reflexivity|]. split; [exact I|].
        split; [lia | exact Hf]. }
    destruct Hc as (st1 & E1 & I1 & B1 & L1). rewrite E1.
    apply IH; [exact I1 | lia | exact L1].
Qed.

Lemma exec_calls_keeps NM pt cs : forall st,
  table_inv pt st ->
  next_frame st + 4 * Z.of_nat (length cs) <= 2 ^ 52 ->
  exists st',
    exec_calls NM pt cs st = Done tt st' /\
    table_inv pt st' /\
    next_frame st' <= next_frame st + 4 * Z.of_nat (length cs) /\
    forall q b, path_ok q -> (length q <= 4)%nat ->
      walk (mem st) 1 (root_of pt) q = WNode b ->
      walk (mem st') 1 (root_of pt) q = WNode b.
Proof.
  induction cs as [|c cs IH]; intros st I R.
  - exists st. split; [reflexivity|]. split; [exact I|].
    split; [cbn [length]; lia | auto].
  - cbn [length] in *. cbn [exec_calls]. unfold bind.
    assert (Hc : exists st1,
               exec_call NM pt c st = Done tt st1 /\ table_inv pt st1 /\
               next_frame st1 <= next_frame st + 4 /\
               forall q b, path_ok q -> (length q <= 4)%nat ->
                 walk (mem st) 1 (root_of pt) q = WNode b ->
                 walk (mem st1) 1 (root_of pt) q = WNode b).
    { destruct c as [vpn ppn | vpn]; cbn [exec_call].
      - destruct (update_keeps NM pt vpn ppn st I ltac:(lia))
          as (st1 & E & I1 & B & K).
        exists st1. split; [exact E|]. split; [exact I1|].
        split; [lia | exact K].
      - unfold bind. rewrite (query_defined NM pt st I).
        exists st. split; [reflexivity|]. split; [exact I|].
        split; [lia | auto]. }
    destruct Hc as (st1 & E1 & I1 & B1 & K1). rewrite E1.
    destruct (IH st1 I1 ltac:(lia)) as (st' & E & I' & B & K).
    exists st'. split; [exact E|]. split; [exact I'|].
    split; [lia | auto].
Qed.

(** ** Unmapping and the other pages *)

(** X1: on a well-formed table, unmapping page [v1] leaves the result of
    [page_table_query] unchanged for every page [v2] that differs from
    [v1] in bits 0-44. *)
Theorem unmap_keeps_other_pages NM pt v1 v2 st :
  table_inv pt st -> v2 mod 2 ^ 45 <> v1 mod 2 ^ 45 ->
  exists st' r,
    page_table_update NM pt v1 NM st = Done tt st' /\
    page_table_query NM pt v2 st = Done r st /\
    page_table_query NM pt v2 st' = Done r st'.
Proof.
  intros I D. rewrite update_unmap.
  assert (Hq : path_ok (vpn_path v1)) by apply path_from_ok.
  assert (Lq : length (vpn_path v1) = 4%nat) by apply path_from_length.
  destruct (destroy_defined pt st I v1) as (s & E & I' & C).
  exists (set_mem st s 0), (lookup NM (mem st) pt v2).
  split; [exact E|]. split; [apply query_defined, I|].
  rewrite (query_defined NM pt _ I'). f_equal.
  destruct C as [(i & c & j & W & Hi & -> & Z0) | (a & W & ->)].
  - apply lookup_ext, (set_zero_same st _ Z0).
  - apply (leaf_lookup_miss NM pt st I (vpn_path v1) a);
      auto using vpn_index_ok. now apply other_slot.
Qed.

Lemma unmap_keeps_other_pages_witness :
  table_inv 1 boot /\ 1 mod 2 ^ 45 <> 0 mod 2 ^ 45 /\
  exists st' r,
    page_table_update all_ones 1 0 all_ones boot = Done tt st' /\
    page_table_query all_ones 1 1 boot = Done r boot /\
    page_table_query all_ones 1 1 st' = Done r st'.
Proof.
  assert (D : 1 mod 2 ^ 45 <> 0 mod 2 ^ 45) by (vm_compute; discriminate).
  split; [exact boot_inv|]. split; [exact D|].
  exact (unmap_keeps_other_pages all_ones 1 0 1 boot boot_inv D).
Defined.

(** ** A sequence of calls as a map *)

(** X2: starting from an all-zero root table, after any sequence of
    updates and queries (with room for four frames per call) the query of
    every page returns what the last update of a page with the same bits
    0-44 left: [NO_MAPPING] if there was none or it was an unmap, and the
    low 52 bits of its physical page number otherwise. *)
Theorem calls_refine_map NM pt cs st :
  fresh_table pt st ->
  next_frame st + 4 * Z.of_nat (length cs) <= 2 ^ 52 ->
  exists st',
    exec_calls NM pt cs st = Done tt st' /\
    forall v, page_table_query NM pt v st' = Done (model_calls NM cs v) st'.
Proof.
  intros F R.
  destruct (exec_calls_lookup NM pt cs st (fun _ => NM)
              (fresh_table_inv pt st F) R) as (st' & E & I' & L).
  { intro v. now apply fresh_lookup. }
  exists st'. split; [exact E|].
  intro v. rewrite (query_defined NM pt st' I'), L. reflexivity.
Qed.

Lemma calls_refine_map_witness :
  fresh_table 1 boot /\
  next_frame boot
  + 4 * Z.of_nat (length [Update 4096 7; Update 5 9; Update 4096 all_ones])
  <= 2 ^ 52 /\
  exists st',
    exec_calls all_ones 1 [Update 4096 7; Update 5 9; Update 4096 all_ones] boot
    = Done tt st' /\
    forall v,
      page_table_query all_ones 1 v st'
      = Done (model_calls all_ones
                [Update 4096 7; Update 5 9; Update 4096 all_ones] v) st'.
Proof.
  assert (R : next_frame boot
              + 4 * Z.of_nat (length [Update 4096 7; Update 5 9;
                                      Update 4096 all_ones])
              <= 2 ^ 52) by (vm_compute; discriminate).
  split; [exact boot_fresh|]. split; [exact R|].
  exact (calls_refine_map all_ones 1
           [Update 4096 7; Update 5 9; Update 4096 all_ones] boot boot_fresh R).
Defined.

(** X3: on a freshly allocated, all-zero root table the query of every
    page returns [NO_MAPPING]. *)
Theorem fresh_table_unmapped NM pt vpn st :
  fresh_table pt st -> page_table_query NM pt vpn st = Done NM st.
Proof.
  intro F. rewrite (query_defined NM pt st (fresh_table_inv pt st F)).
  now rewrite fresh_lookup.
Qed.

Lemma fresh_table_unmapped_witness :
  fresh_table 1 boot /\
  page_table_query all_ones 1 4096 boot = Done all_ones boot.
Proof.
  split; [exact boot_fresh|].
  exact (fresh_table_unmapped all_ones 1 4096 boot boot_fresh).
Defined.

(** X4: on a well-formed table with room for eight more frames, two
    updates (mappings or unmaps) of pages that differ in bits 0-44 can be
    made in either order: afterwards the query of every page returns the
    same in both orders. *)
Theorem updates_commute NM pt v1 p1 v2 p2 st :
  table_inv pt st -> next_frame st + 8 <= 2 ^ 52 ->
  v1 mod 2 ^ 45 <> v2 mod 2 ^ 45 ->
  exists s1 s12 s2 s21,
    page_table_update NM pt v1 p1 st = Done tt s1 /\
    page_table_update NM pt v2 p2 s1 = Done tt s12 /\
    page_table_update NM pt v2 p2 st = Done tt s2 /\
    page_table_update NM pt v1 p1 s2 = Done tt s21 /\
    forall v, exists r,
      page_table_query NM pt v s12 = Done r s12 /\
      page_table_query NM pt v s21 = Done r s21.
Proof.
  intros I R D.
  destruct (update_lookup NM pt v1 p1 st I ltac:(lia)) as (s1 & E1 & I1 & B1 & L1).
  destruct (update_lookup NM pt v2 p2 s1 I1 ltac:(lia)) as (s12 & E12 & I12 & _ & L12).
  destruct (update_lookup NM pt v2 p2 st I ltac:(lia)) as (s2 & E2 & I2 & B2 & L2).
  destruct (update_lookup NM pt v1 p1 s2 I2 ltac:(lia)) as (s21 & E21 & I21 & _ & L21).
  exists s1, s12, s2, s21. repeat (split; [assumption|]).
  intro v. exists (lookup NM (mem s12) pt v).
  split; [apply query_defined, I12|].
  rewrite (query_defined NM pt s21 I21). f_equal.
  rewrite L12, L21, L1, L2. unfold same_page.
  destruct (v mod 2 ^ 45 =? v1 mod 2 ^ 45) eqn:S1;
    destruct (v mod 2 ^ 45 =? v2 mod 2 ^ 45) eqn:S2; try reflexivity.
  apply Z.eqb_eq in S1, S2. elim D. congruence.
Qed.

Lemma updates_commute_witness :
  table_inv 1 boot /\ next_frame boot + 8 <= 2 ^ 52 /\
  4096 mod 2 ^ 45 <> 5 mod 2 ^ 45 /\
  exists s1 s12 s2 s21,
    page_table_update all_ones 1 4096 7 boot = Done tt s1 /\
    page_table_update all_ones 1 5 all_ones s1 = Done tt s12 /\
    page_table_update all_ones 1 5 all_ones boot = Done tt s2 /\
    page_table_update all_ones 1 4096 7 s2 = Done tt s21 /\
    forall v, exists r,
      page_table_query all_ones 1 v s12 = Done r s12 /\
      page_table_query all_ones 1 v s21 = Done r s21.
Proof.
  assert (R : next_frame boot + 8 <= 2 ^ 52) by (vm_compute; discriminate).
  assert (D : 4096 mod 2 ^ 45 <> 5 mod 2 ^ 45) by (vm_compute; discriminate).
  split; [exact boot_inv|]. split; [exact R|]. split; [exact D|].
  exact (updates_commute all_ones 1 4096 7 5 all_ones boot boot_inv R D).
Defined.

(** ** Frames taken by a mapping *)

(** X5: on a well-formed table with room for four more frames, mapping a
    page takes no frame when its four pointer entries are valid, and
    otherwise one frame for each level from the first invalid pointer
    entry, at level [i] between 1 and 4, down to level 4: [5 - i] frames,
    never more than four. *)
Theorem map_frame_count NM pt vpn ppn st :
  table_inv pt st -> next_frame st + 4 <= 2 ^ 52 -> ppn <> NM ->
  exists st',
    page_table_update NM pt vpn ppn st = Done tt st' /\
    next_frame st'
    = next_frame st
      + match walk (mem st) 1 (root_of pt) (vpn_path vpn) with
        | WStop i _ _ => 5 - i
        | _ => 0
        end /\
    next_frame st <= next_frame st' <= next_frame st + 4.
Proof.
  intros I R N. rewrite update_map by exact N.
  destruct (create_more pt vpn ppn st I R) as (st' & E & _ & Count).
  exists st'. split; [exact E|]. split; [exact Count|].
  rewrite Count.
  destruct (walk (mem st) 1 (root_of pt) (vpn_path vpn)) as [|i c j|a] eqn:W;
    try lia.
  destruct (walk_stop _ _ _ _ _ _ _ W) as (q1 & q2 & Eq & _ & _ & _ & Hi).
  apply (f_equal (@length Z)) in Eq.
  rewrite length_app in Eq. cbn [length] in Eq.
  unfold vpn_path in Eq. rewrite path_from_length in Eq. lia.
Qed.

Lemma map_frame_count_witness :
  table_inv 1 boot /\ next_frame boot + 4 <= 2 ^ 52 /\ 7 <> all_ones /\
  exists st',
    page_table_update all_ones 1 4096 7 boot = Done tt st' /\
    next_frame st'
    = next_frame boot
      + match walk (mem boot) 1 (root_of 1) (vpn_path 4096) with
        | WStop i _ _ => 5 - i
        | _ => 0
        end /\
    next_frame boot <= next_frame st' <= next_frame boot + 4.
Proof.
  assert (R : next_frame boot + 4 <= 2 ^ 52) by (vm_compute; discriminate).
  assert (N : 7 <> all_ones) by (vm_compute; discriminate).
  split; [exact boot_inv|]. split; [exact R|]. split; [exact N|].
  exact (map_frame_count all_ones 1 4096 7 boot boot_inv R N).
Defined.

(** X6: once a page has been mapped, its intermediate nodes stay: after
    any further sequence of updates and queries, unmaps of the page
    included, mapping the page again takes no frame from the allocator
    and the query returns the low 52 bits of the new physical page
    number. *)
Theorem mapped_path_persists NM pt vpn p1 p2 cs st :
  table_inv pt st ->
  next_frame st + 4 + 4 * Z.of_nat (length cs) <= 2 ^ 52 ->
  p1 <> NM -> p2 <> NM ->
  exists st1 st2 st3,
    page_table_update NM pt vpn p1 st = Done tt st1 /\
    exec_calls NM pt cs st1 = Done tt st2 /\
    page_table_update NM pt vpn p2 st2 = Done tt st3 /\
    next_frame st3 = next_frame st2 /\
    page_table_query NM pt vpn st3 = Done (p2 mod 2 ^ 52) st3.
Proof.
  intros I R N1 N2. rewrite update_map by exact N1.
  destruct (create_defined NM pt st I vpn p1 ltac:(lia))
    as (st1 & E1 & I1 & _ & _ & B1 & a & W1).
  destruct (exec_calls_keeps NM pt cs st1 I1 ltac:(lia))
    as (st2 & E2 & I2 & _ & K).
  assert (Hq : path_ok (vpn_path vpn)) by apply path_from_ok.
  assert (Lq : length (vpn_path vpn) = 4%nat) by apply path_from_length.
  pose proof (vpn_index_ok vpn 5) as H5.
  pose proof (K (vpn_path vpn) a Hq ltac:(lia) W1) as W2.
  exists st1, st2,
    (set_mem st2 (a + 8 * vpn_index vpn 5) (add64 (shl64 p2 12) 1)).
  split; [exact E1|]. split; [exact E2|]. split; [|split; [reflexivity|]].
  - rewrite update_map by exact N2.
    rewrite (create_present _ vpn p2 st2 a W2). unfold store.
    rewrite (node_slot_valid pt st2 I2 (vpn_path vpn) a) by (auto; lia).
    reflexivity.
  - rewrite query_defined.
    + rewrite (leaf_lookup_hit NM pt st2 I2 (vpn_path vpn)); auto.
      rewrite entry_word, entry_odd, entry_page. reflexivity.
    + apply (leaf_inv pt st2 I2 (vpn_path vpn)); auto. apply pte_ok_entry.
Qed.

Lemma mapped_path_persists_witness :
  table_inv 1 boot /\
  next_frame boot + 4
  + 4 * Z.of_nat (length [Update 4096 all_ones; Query 4096; Update 5 3])
  <= 2 ^ 52 /\
  7 <> all_ones /\ 9 <> all_ones /\
  exists st1 st2 st3,
    page_table_update all_ones 1 4096 7 boot = Done tt st1 /\
    exec_calls all_ones 1 [Update 4096 all_ones; Query 4096; Update 5 3] st1
    = Done tt st2 /\
    page_table_update all_ones 1 4096 9 st2 = Done tt st3 /\
    next_frame st3 = next_frame st2 /\
    page_table_query all_ones 1 4096 st3 = Done (9 mod 2 ^ 52) st3.
Proof.
  assert (R : next_frame boot + 4
              + 4 * Z.of_nat (length [Update 4096 all_ones; Query 4096;
                                      Update 5 3])
              <= 2 ^ 52) by (vm_compute; discriminate).
  assert (N1 : 7 <> all_ones) by (vm_compute; discriminate).
  assert (N2 : 9 <> all_ones) by (vm_compute; discriminate).
  split; [exact boot_inv|]. split; [exact R|]. split; [exact N1|].
  split; [exact N2|].
  exact (mapped_path_persists all_ones 1 4096 7 9
           [Update 4096 all_ones; Query 4096; Update 5 3] boot
           boot_inv R N1 N2).
Defined.

(** ** The root argument *)

(** X7: the operations use the root page number only through
    [pt << 12], which drops its bits 52-63: two root page numbers that
    agree in bits 0-51 name the same table, in every state. *)
Theorem root_high_bits_ignored NM pt1 pt2 vpn ppn st :
  pt1 mod 2 ^ 52 = pt2 mod 2 ^ 52 ->
  page_table_update NM pt1 vpn ppn st = page_table_update NM pt2 vpn ppn st /\
  page_table_query NM pt1 vpn st = page_table_query NM pt2 vpn st.
Proof.
  intro E.
  assert (Er : root_of pt1 = root_of pt2) by (now rewrite !root_of_low, E).
  unfold page_table_update, page_table_query. cbv zeta.
  fold (root_of pt1). fold (root_of pt2). now rewrite Er.
Qed.

Lemma root_high_bits_ignored_witness :
  1 mod 2 ^ 52 = (1 + 2 ^ 52) mod 2 ^ 52 /\
  page_table_update all_ones 1 4096 7 boot
  = page_table_update all_ones (1 + 2 ^ 52) 4096 7 boot /\
  page_table_query all_ones 1 4096 boot
  = page_table_query all_ones (1 + 2 ^ 52) 4096 boot.
Proof.
  assert (E : 1 mod 2 ^ 52 = (1 + 2 ^ 52) mod 2 ^ 52) by reflexivity.
  split; [exact E|].
  exact (root_high_bits_ignored all_ones 1 (1 + 2 ^ 52) 4096 7 boot E).
Defined.

(** ** The range of a query *)

(** X8: on a well-formed table a query returns either [NO_MAPPING] or a
    page number below 2^52, the content of bits 12-63 of a valid leaf
    entry. *)
Theorem query_range NM pt vpn st :
  table_inv pt st ->
  exists r,
    page_table_query NM pt vpn st = Done r st /\
    (r = NM \/ 0 <= r < 2 ^ 52).
Proof.
  intro I. exists (lookup NM (mem st) pt vpn).
  split; [apply query_defined, I|].
  assert (Hq : path_ok (vpn_path vpn)) by apply path_from_ok.
  assert (Lq : length (vpn_path vpn) = 4%nat) by apply path_from_length.
  unfold lookup.
  destruct (walk (mem st) 1 (root_of pt) (vpn_path vpn)) as [| |a] eqn:W;
    auto.
  destruct (inv_nodes _ _ I (vpn_path vpn) a Hq ltac:(lia) W) as [_ Hn].
  specialize (Hn _ (vpn_index_ok vpn 5)).
  destruct (mem st (a + 8 * vpn_index vpn 5) mod 2 =? 1) eqn:P; auto.
  apply Z.eqb_eq in P.
  destruct (pte_ok_valid _ Hn) as (n & Bn & En); [lia|].
  right. rewrite En, entry_page. exact Bn.
Qed.

Lemma query_range_witness :
  table_inv 1 boot /\
  exists r,
    page_table_query all_ones 1 4096 boot = Done r boot /\
    (r = all_ones \/ 0 <= r < 2 ^ 52).
Proof.
  split; [exact boot_inv|].
  exact (query_range all_ones 1 4096 boot boot_inv).
Defined.

(** ** Nodes stay where they are *)

(** X9: on a well-formed table with room for four more frames, every
    update, mapping or unmap, returns, leaves a well-formed table, gives
    no frame back to the allocator, and leaves every node of the table
    reachable from the root along the same indices as before. *)
Theorem update_keeps_nodes NM pt vpn ppn st :
  table_inv pt st -> next_frame st + 4 <= 2 ^ 52 ->
  exists st',
    page_table_update NM pt vpn ppn st = Done tt st' /\
    table_inv pt st' /\
    next_frame st <= next_frame st' <= next_frame st + 4 /\
    forall q b, path_ok q -> (length q <= 4)%nat ->
      walk (mem st) 1 (root_of pt) q = WNode b ->
      walk (mem st') 1 (root_of pt) q = WNode b.
Proof. intros I R. exact (update_keeps NM pt vpn ppn st I R). Qed.

Lemma update_keeps_nodes_witness :
  table_inv 1 boot /\ next_frame boot + 4 <= 2 ^ 52 /\
  exists st',
    page_table_update all_ones 1 4096 7 boot = Done tt st' /\
    table_inv 1 st' /\
    next_frame boot <= next_frame st' <= next_frame boot + 4 /\
    forall q b, path_ok q -> (length q <= 4)%nat ->
      walk (mem boot) 1 (root_of 1) q = WNode b ->
      walk (mem st') 1 (root_of 1) q = WNode b.
Proof.
  assert (R : next_frame boot + 4 <= 2 ^ 52) by (vm_compute; discriminate).
  split; [exact boot_inv|]. split; [exact R|].
  exact (update_keeps_nodes all_ones 1 4096 7 boot boot_inv R).
Defined.

(** ** Undoing a mapping *)

(** X10: on a well-formed table with room for four more frames, mapping
    a page that was unmapped and unmapping it again gives back the view
    of the table, the query of every page returning what it returned
    before; the frames taken by the mapping are not given back. *)
Theorem map_unmap_restores_view NM pt vpn ppn st :
  table_inv pt st -> next_frame st + 4 <= 2 ^ 52 ->
  page_table_query NM pt vpn st = Done NM st ->
  exists st1 st2,
    page_table_update NM pt vpn ppn st = Done tt st1 /\
    page_table_update NM pt vpn NM st1 = Done tt st2 /\
    next_frame st2 = next_frame st1 /\
    forall v, exists r,
      page_table_query NM pt v st = Done r st /\
      page_table_query NM pt v st2 = Done r st2.
Proof.
  intros I R U.
  rewrite (query_defined NM pt st I) in U.
  assert (U' : lookup NM (mem st) pt vpn = NM) by congruence.
  destruct (update_lookup NM pt vpn ppn st I R) as (st1 & E1 & I1 & _ & L1).
  destruct (unmap_lookup NM pt vpn st1 I1) as (st2 & E2 & I2 & B2 & L2).
  exists st1, st2. split; [exact E1|]. split; [exact E2|].
  split; [exact B2|].
  intro v. exists (lookup NM (mem st) pt v).
  split; [apply query_defined, I|].
  rewrite (query_defined NM pt st2 I2). f_equal.
  rewrite L2, L1. unfold same_page.
  destruct (v mod 2 ^ 45 =? vpn mod 2 ^ 45) eqn:SP; [|reflexivity].
  apply Z.eqb_eq in SP. now rewrite (lookup_low NM _ pt v vpn SP).
Qed.

Lemma map_unmap_restores_view_witness :
  table_inv 1 boot /\ next_frame boot + 4 <= 2 ^ 52 /\
  page_table_query all_ones 1 4096 boot = Done all_ones boot /\
  exists st1 st2,
    page_table_update all_ones 1 4096 7 boot = Done tt st1 /\
    page_table_update all_ones 1 4096 all_ones st1 = Done tt st2 /\
    next_frame st2 = next_frame st1 /\
    forall v, exists r,
      page_table_query all_ones 1 v boot = Done r boot /\
      page_table_query all_ones 1 v st2 = Done r st2.
Proof.
  assert (R : next_frame boot + 4 <= 2 ^ 52) by (vm_compute; discriminate).
  assert (U : page_table_query all_ones 1 4096 boot = Done all_ones boot)
    by reflexivity.
  split; [exact boot_inv|]. split; [exact R|]. split; [exact U|].
  exact (map_unmap_restores_view all_ones 1 4096 7 boot boot_inv R U).
Defined.

(** ** Pages that share a leaf node *)

Lemma vpn_index_upper v1 v2 k :
  1 <= k <= 4 ->
  Z.shiftr v1 9 mod 2 ^ 36 = Z.shiftr v2 9 mod 2 ^ 36 ->
  vpn_index v1 k = vpn_index v2 k.
Proof.
  intros Hk E. unfold vpn_index, EXTRACT_9BITS. change 511 with (Z.ones 9).
  apply Z.bits_inj'. intros n Hn.
  rewrite !Z.land_spec, !Z.shiftr_spec by lia.
  destruct (Z.lt_ge_cases n 9) as [Hlt | Hge].
  - f_equal.
    replace (n + (45 - 9 * k)) with ((n + (36 - 9 * k)) + 9) by lia.
    rewrite <- (Z.shiftr_spec v1 9 (n + (36 - 9 * k))) by lia.
    rewrite <- (Z.shiftr_spec v2 9 (n + (36 - 9 * k))) by lia.
    rewrite <- (Z.mod_pow2_bits_low (Z.shiftr v1 9) 36) by lia.
    rewrite <- (Z.mod_pow2_bits_low (Z.shiftr v2 9) 36) by lia.
    now rewrite E.
  - rewrite Z.ones_spec_high by lia. now rewrite !andb_false_r.
Qed.

Lemma vpn_path_upper v1 v2 :
  Z.shiftr v1 9 mod 2 ^ 36 = Z.shiftr v2 9 mod 2 ^ 36 ->
  vpn_path v1 = vpn_path v2.
Proof.
  intro E. unfold vpn_path. cbn [path_from].
  rewrite !(vpn_index_upper v1 v2) by (cbn; lia || assumption).
  reflexivity.
Qed.

Lemma vpn_index_last v : vpn_index v 5 = v mod 2 ^ 9.
Proof.
  unfold vpn_index, EXTRACT_9BITS. change (45 - 9 * 5) with 0.
  rewrite Z.shiftr_0_r. change 511 with (Z.ones 9).
  apply Z.land_ones. lia.
Qed.

(** X11: pages that agree in bits 9-44 share their intermediate nodes:
    on a well-formed table with room for four more frames, after page
    [v1] has been mapped, mapping a page [v2] that agrees with it in bits
    9-44 and differs in bits 0-8 takes no frame, and afterwards both
    pages return the low 52 bits of their own physical page numbers. *)
Theorem sibling_shares_nodes NM pt v1 p1 v2 p2 st :
  table_inv pt st -> next_frame st + 4 <= 2 ^ 52 ->
  p1 <> NM -> p2 <> NM ->
  Z.shiftr v1 9 mod 2 ^ 36 = Z.shiftr v2 9 mod 2 ^ 36 ->
  v1 mod 2 ^ 9 <> v2 mod 2 ^ 9 ->
  exists st1 st2,
    page_table_update NM pt v1 p1 st = Done tt st1 /\
    page_table_update NM pt v2 p2 st1 = Done tt st2 /\
    next_frame st2 = next_frame st1 /\
    page_table_query NM pt v1 st2 = Done (p1 mod 2 ^ 52) st2 /\
    page_table_query NM pt v2 st2 = Done (p2 mod 2 ^ 52) st2.
Proof.
  intros I R N1 N2 Eu Dl. rewrite update_map by exact N1.
  destruct (create_defined NM pt st I v1 p1 R)
    as (st1 & E1 & I1 & L1 & _ & _ & a & W1).
  pose proof (vpn_path_upper v1 v2 Eu) as Ep.
  assert (Hq : path_ok (vpn_path v2)) by apply path_from_ok.
  assert (Lq : length (vpn_path v2) = 4%nat) by apply path_from_length.
  pose proof (vpn_index_ok v2 5) as H5.
  assert (W2 : walk (mem st1) 1 (root_of pt) (vpn_path v2) = WNode a)
    by (rewrite <- Ep; exact W1).
  pose proof (leaf_inv pt st1 I1 (vpn_path v2) a (vpn_index v2 5)
                (add64 (shl64 p2 12) 1) Hq Lq W2 H5 (pte_ok_entry p2)) as I2.
  exists st1, (set_mem st1 (a + 8 * vpn_index v2 5) (add64 (shl64 p2 12) 1)).
  split; [exact E1|]. split; [|split; [reflexivity|split]].
  - rewrite update_map by exact N2.
    rewrite (create_present _ v2 p2 st1 a W2). unfold store.
    rewrite (node_slot_valid pt st1 I1 (vpn_path v2) a) by (auto; lia).
    reflexivity.
  - rewrite (query_defined NM pt _ I2). f_equal.
    rewrite (leaf_lookup_miss NM pt st1 I1 (vpn_path v2)); auto.
    right. rewrite !vpn_index_last. exact Dl.
  - rewrite (query_defined NM pt _ I2). f_equal.
    rewrite (leaf_lookup_hit NM pt st1 I1 (vpn_path v2)); auto.
    rewrite entry_word, entry_odd, entry_page. reflexivity.
Qed.

Lemma sibling_shares_nodes_witness :
  table_inv 1 boot /\ next_frame boot + 4 <= 2 ^ 52 /\
  7 <> all_ones /\ 9 <> all_ones /\
  Z.shiftr 4096 9 mod 2 ^ 36 = Z.shiftr 4097 9 mod 2 ^ 36 /\
  4096 mod 2 ^ 9 <> 4097 mod 2 ^ 9 /\
  exists st1 st2,
    page_table_update all_ones 1 4096 7 boot = Done tt st1 /\
    page_table_update all_ones 1 4097 9 st1 = Done tt st2 /\
    next_frame st2 = next_frame st1 /\
    page_table_query all_ones 1 4096 st2 = Done (7 mod 2 ^ 52) st2 /\
    page_table_query all_ones 1 4097 st2 = Done (9 mod 2 ^ 52) st2.
Proof.
  assert (R : next_frame boot + 4 <= 2 ^ 52) by (vm_compute; discriminate).
  assert (N1 : 7 <> all_ones) by (vm_compute; discriminate).
  assert (N2 : 9 <> all_ones) by (vm_compute; discriminate).
  assert (Eu : Z.shiftr 4096 9 mod 2 ^ 36 = Z.shiftr 4097 9 mod 2 ^ 36)
    by reflexivity.
  assert (Dl : 4096 mod 2 ^ 9 <> 4097 mod 2 ^ 9) by (vm_compute; discriminate).
  split; [exact boot_inv|]. split; [exact R|]. split; [exact N1|].
  split; [exact N2|]. split; [exact Eu|]. split; [exact Dl|].
  exact (sibling_shares_nodes all_ones 1 4096 7 4097 9 boot
           boot_inv R N1 N2 Eu Dl).
Defined.

(** ** The physical page number argument *)

(** X12: a mapping keeps only bits 0-51 of the physical page number: two
    physical page numbers other than [NO_MAPPING] that agree in bits 0-51
    make [page_table_update] do the same, in every state. *)
Theorem ppn_high_bits_ignored NM pt vpn p1 p2 st :
  p1 <> NM -> p2 <> NM -> p1 mod 2 ^ 52 = p2 mod 2 ^ 52 ->
  page_table_update NM pt vpn p1 st = page_table_update NM pt vpn p2 st.
Proof.
  intros N1 N2 E. rewrite !update_map by assumption.
  unfold create_virtual_memory_mapping. now rewrite !entry_word, E.
Qed.

Lemma ppn_high_bits_ignored_witness :
  7 <> all_ones /\ 2 ^ 52 + 7 <> all_ones /\
  7 mod 2 ^ 52 = (2 ^ 52 + 7) mod 2 ^ 52 /\
  page_table_update all_ones 1 4096 7 boot
  = page_table_update all_ones 1 4096 (2 ^ 52 + 7) boot.
Proof.
  assert (N1 : 7 <> all_ones) by (vm_compute; discriminate).
  assert (N2 : 2 ^ 52 + 7 <> all_ones) by (vm_compute; discriminate).
  assert (E : 7 mod 2 ^ 52 = (2 ^ 52 + 7) mod 2 ^ 52) by reflexivity.
  split; [exact N1|]. split; [exact N2|]. split; [exact E|].
  exact (ppn_high_bits_ignored all_ones 1 4096 7 (2 ^ 52 + 7) boot N1 N2 E).
Defined.
